(** * xrasterlib.Raster: a shallow embedding and its checked properties

    The Python class [Raster] of [xrasterlib/Raster.py] keeps three
    attributes ([data], [bands], [nodataval]) in sync while it calls xarray,
    rasterio and numpy.  The embedding below threads the object [self]
    through a state-and-exception monad, so that the attributes left behind
    by a call that raises are still visible, and models

    - the labelled array [self.data] as the list of its bands, each with its
      ['band'] coordinate label and its pixels in row-major order;
    - the file system as a finite map from paths to raster files, which
      the constructor and [toraster] read and into which [toraster] writes
      its output, so that a raster written is what a later read of that
      path finds;
    - the numpy arrays the caller owns as a store indexed by references,
      each array with its dtype, because [toraster] assigns into the array
      it is given;
    - what opening and writing the output does as a function the world
      carries: for a path, a profile and an array it says whether the
      write raises, and what is left at the path then, or what rasterio
      derives for the file stored (mask, scales, offsets, no-data values).

    What the libraries do is modelled only as far as the class relies on
    it.  A pixel is an integer or NaN, and every comparison with NaN is
    false; no-data values, scales, offsets and the atmospheric factor are
    integers: the class compares, copies and replaces them, it does no
    arithmetic on them.  A store into an integer array wraps to the
    array's dtype, and so does the write into the int16 raster.
    [xr.concat] is applied to operands on the same grid.  The band list is
    held by value: the class keeps the caller's list object and appends to
    it in place, which only a caller who goes on using that list can
    observe.  [print] is left out, and so is the attribute [logger], which
    no method reads.

    Exceptions are those Python raises.  The specification names them by
    role: its NotFoundError and ConfigurationError are the two
    [RuntimeError]s of the constructor, its UnsupportedOperatorError is the
    [KeyError] of the lookup in the operator table, and its
    InvalidBandError is the [AssertionError] of [dropindices]. *)

From Stdlib Require Import ZArith String.
From stdpp Require Import base option list gmap strings.

Local Open Scope string_scope.
Local Open Scope Z_scope.

(** ** Python exceptions and results *)

Inductive exn : Type :=
  | RuntimeError (msg : string)
  | KeyError (key : string)
  | AssertionError (msg : string)
  | AttributeError (name : string)
  | TypeError (msg : string)
  | IndexError (msg : string)
  | ValueError (msg : string)
  | RasterioIOError (path : string).

Inductive result (A : Type) : Type :=
  | Ok (a : A)
  | Raise (e : exn).
Arguments Ok {A} a.
Arguments Raise {A} e.

(** ** Pixel values *)

(** A pixel, a boundary or a replacement value: a number, or the NaN of a
    float raster.  Numbers are integers here; the class only compares and
    copies them, so any totally ordered carrier would do. *)
Inductive pixel : Type :=
  | Num (z : Z)
  | NaN.

#[global] Instance pixel_eq_dec : EqDecision pixel.
Proof. solve_decision. Defined.

(** [operator.lt], [operator.gt] and [==] on scalars: every comparison
    with NaN is false. *)
Definition pixel_lt (p q : pixel) : bool :=
  match p, q with
  | Num x, Num y => x <? y
  | _, _ => false
  end.

Definition pixel_gt (p q : pixel) : bool :=
  match p, q with
  | Num x, Num y => x >? y
  | _, _ => false
  end.

Definition pixel_eqb (p q : pixel) : bool :=
  match p, q with
  | Num x, Num y => x =? y
  | _, _ => false
  end.

(** ** Raster files, as rasterio and xarray show them *)

(** [src.profile]: the keys [toraster] overwrites, and the rest
    (driver, transform, crs, compression, ...) kept as they are. *)
Record Profile : Type := {
  meta_count : nat;
  meta_dtype : string;
  meta_width : nat;
  meta_height : nat;
  meta_other : list (string * string)
}.

(** The dtype of a numpy array: a signed or an unsigned integer of so many
    bits ([int16] is [Int 16]), or a float, which holds the integers met
    here as they are. *)
Inductive dtype : Type :=
  | Int (bits : Z)
  | UInt (bits : Z)
  | Float.

(** What a store into an array of that dtype keeps of an integer: the
    integer dtypes wrap. *)
Definition astype (dt : dtype) (z : Z) : Z :=
  match dt with
  | Int n => (z + 2 ^ (n - 1)) mod 2 ^ n - 2 ^ (n - 1)
  | UInt n => z mod 2 ^ n
  | Float => z
  end.

(** A two-dimensional numpy array: its dtype, its shape and its entries,
    row-major. *)
Record NdArray : Type := {
  nd_dtype : dtype;
  nd_shape : nat * nat;
  nd_flat : list Z
}.

Record RasterFile : Type := {
  profile : Profile;
  pixels : list (list pixel);  (* one entry per band *)
  mask1 : list Z;              (* [read_masks(1)]: 0 invalid, 255 valid *)
  scales : list Z;
  offsets : list Z;
  nodatavals : list Z
}.

Inductive FsEntry : Type :=
  | Tif (f : RasterFile)
  | NotRaster.

(** ** The labelled array [self.data] *)

Record DataArray : Type := {
  da_bands : list (Z * list pixel);     (* ['band'] label, pixels *)
  da_y : nat;
  da_x : nat;
  attrs_scales : list Z;
  attrs_offsets : list Z;
  attrs_nodatavals : list Z
}.

(** [data.shape]: (band, y, x). *)
Definition da_shape (d : DataArray) : nat * nat * nat :=
  (length (da_bands d), da_y d, da_x d).

Definition with_bands (d : DataArray) (bs : list (Z * list pixel)) : DataArray :=
  {| da_bands := bs; da_y := da_y d; da_x := da_x d;
     attrs_scales := attrs_scales d; attrs_offsets := attrs_offsets d;
     attrs_nodatavals := attrs_nodatavals d |}.

Definition with_scales (d : DataArray) (s : list Z) : DataArray :=
  {| da_bands := da_bands d; da_y := da_y d; da_x := da_x d;
     attrs_scales := s; attrs_offsets := attrs_offsets d;
     attrs_nodatavals := attrs_nodatavals d |}.

Definition with_offsets (d : DataArray) (o : list Z) : DataArray :=
  {| da_bands := da_bands d; da_y := da_y d; da_x := da_x d;
     attrs_scales := attrs_scales d; attrs_offsets := o;
     attrs_nodatavals := attrs_nodatavals d |}.

(** [os.path.isfile] *)
Definition isfile (fs : gmap string FsEntry) (filename : string) : bool :=
  bool_decide (is_Some (fs !! filename)).

(** The array [xr.open_rasterio] builds from a raster file: bands are
    labelled 1, 2, ... in file order; the chunking only defers the reads. *)
Definition to_dataarray (f : RasterFile) : DataArray :=
  {| da_bands := imap (λ i px, (Z.of_nat (S i), px)) (pixels f);
     da_y := meta_height (profile f);
     da_x := meta_width (profile f);
     attrs_scales := scales f;
     attrs_offsets := offsets f;
     attrs_nodatavals := nodatavals f |}.

(** [xr.open_rasterio] *)
Definition open_rasterio (fs : gmap string FsEntry) (filename : string)
  : result DataArray :=
  match fs !! filename with
  | Some (Tif f) => Ok (to_dataarray f)
  | _ => Raise (RasterioIOError filename)
  end.

(** ** The object and its monad *)

(** An attribute that was never assigned is [None]; [bands] holds whatever
    the caller passed, which may be Python's [None] (the inner [None]). *)
Record Raster : Type := {
  data : option DataArray;
  bands : option (option (list string));
  nodataval : option (list Z)
}.

Definition M (A : Type) : Type := Raster → Raster * result A.

Definition ret {A} (a : A) : M A := λ self, (self, Ok a).
Definition raise {A} (e : exn) : M A := λ self, (self, Raise e).
Definition lift {A} (r : result A) : M A := λ self, (self, r).
Definition bind {A B} (m : M A) (k : A → M B) : M B :=
  λ self,
    match m self with
    | (self', Ok a) => k a self'
    | (self', Raise e) => (self', Raise e)
    end.

Notation "x <- m ;; k" := (bind m (λ x, k))
  (at level 100, m at next level, right associativity).
Notation "m ;;; k" := (bind m (λ _, k))
  (at level 100, right associativity).

Definition get_data : M DataArray :=
  λ self, match data self with
          | Some d => (self, Ok d)
          | None => (self, Raise (AttributeError "data"))
          end.

(** [self.bands] used as a sequence. *)
Definition get_bands : M (list string) :=
  λ self, match bands self with
          | Some (Some bs) => (self, Ok bs)
          | Some None => (self, Raise (TypeError "NoneType"))
          | None => (self, Raise (AttributeError "bands"))
          end.

Definition set_data (d : DataArray) : M unit :=
  λ self, ({| data := Some d; bands := bands self;
              nodataval := nodataval self |}, Ok tt).

Definition set_bands (bs : option (list string)) : M unit :=
  λ self, ({| data := data self; bands := Some bs;
              nodataval := nodataval self |}, Ok tt).

Definition set_nodataval (v : list Z) : M unit :=
  λ self, ({| data := data self; bands := bands self;
              nodataval := Some v |}, Ok tt).

(** ** Construction and loading *)

Definition empty_raster : Raster :=
  {| data := None; bands := None; nodataval := None |}.

(** [Raster.__init__(filename, bands)], run on the fresh object. *)
Definition init (fs : gmap string FsEntry)
    (filename : option string) (bs : option (list string)) : M unit :=
  match filename with
  | None => ret tt
  | Some f =>
      if negb (isfile fs f)
      then raise (RuntimeError (f ++ " does not exist")%string)
      else
        d <- lift (open_rasterio fs f) ;;
        set_data d ;;;
        match bs with
        | None =>
            raise (RuntimeError
              "Must specify band names. Refer to documentation for details.")
        | Some _ =>
            set_bands bs ;;;
            set_nodataval (attrs_nodatavals d)
        end
  end.

(** [Raster(filename, bands)] *)
Definition new_Raster (fs : gmap string FsEntry)
    (filename : option string) (bs : option (list string))
  : Raster * result unit :=
  init fs filename bs empty_raster.

(** [Raster.readraster(filename, bands)] *)
Definition readraster (fs : gmap string FsEntry)
    (filename : string) (bs : option (list string)) : M unit :=
  d <- lift (open_rasterio fs filename) ;;
  set_data d ;;;
  set_bands bs ;;;
  set_nodataval (attrs_nodatavals d).

(** ** Thresholding *)

(** The table [ops = {'<': operator.lt, '>': operator.gt}]. *)
Definition ops : gmap string (pixel → pixel → bool) :=
  <["<" := pixel_lt]> (<[">" := pixel_gt]> ∅).

(** [DataArray.where(cond, other=replace)] *)
Definition da_where (d : DataArray) (cond : pixel → bool) (other : pixel)
  : DataArray :=
  with_bands d
    (map (λ b : Z * list pixel,
            (b.1, map (λ p, if cond p then p else other) b.2))
         (da_bands d)).

(** [Raster.preprocess(op, boundary, replace)]: Python evaluates
    [self.data] before the argument [ops[op]]. *)
Definition preprocess (op : string) (boundary replace : pixel) : M unit :=
  d <- get_data ;;
  match ops !! op with
  | None => raise (KeyError op)
  | Some cmp => set_data (da_where d (λ p, cmp p boundary) replace)
  end.

(** ** Derived bands *)

(** An index function of [xrasterlib.indices]: called as
    [f(self.data, bands=self.bands, factor=factor)], it returns the derived
    band (an array of its own) and the band's name, or raises. *)
Definition index_function : Type :=
  DataArray → list string → Z → result (DataArray * string).

(** [self.bands.append(bandid)] *)
Definition append_band (bandid : string) : M unit :=
  bs <- get_bands ;;
  set_bands (Some (bs ++ [bandid])%list).

(** [band.coords['band'] = [nbands]]: one label, so the band dimension
    must have size one. *)
Definition set_band_coord (band : DataArray) (nbands : nat) : result DataArray :=
  match da_bands band with
  | [(_, px)] => Ok (with_bands band [(Z.of_nat nbands, px)])
  | _ => Raise (ValueError "conflicting sizes for dimension 'band'")
  end.

(** [xr.concat([d, band], dim='band')]: the bands of the second operand
    follow those of the first, whose attributes are kept. *)
Definition concat (d band : DataArray) : DataArray :=
  with_bands d (da_bands d ++ da_bands band)%list.

(** The [for] loop of [addindices]; it returns the final counter. *)
Fixpoint addindices_loop (indices : list index_function) (factor : Z)
    (nbands : nat) : M nat :=
  match indices with
  | [] => ret nbands
  | indices_function :: rest =>
      let nbands := S nbands in
      d <- get_data ;;
      bs <- get_bands ;;
      r <- lift (indices_function d bs factor) ;;
      append_band r.2 ;;;
      band <- lift (set_band_coord r.1 nbands) ;;
      d' <- get_data ;;
      set_data (concat d' band) ;;;
      addindices_loop rest factor nbands
  end.

(** [l[0]] *)
Definition first (l : list Z) : result Z :=
  match l with
  | x :: _ => Ok x
  | [] => Raise (IndexError "list index out of range")
  end.

(** [Raster.addindices(indices, factor)] *)
Definition addindices (indices : list index_function) (factor : Z) : M unit :=
  bs <- get_bands ;;
  nbands <- addindices_loop indices factor (length bs) ;;
  d <- get_data ;;
  s <- lift (first (attrs_scales d)) ;;
  set_data (with_scales d (replicate nbands s)) ;;;
  d <- get_data ;;
  o <- lift (first (attrs_offsets d)) ;;
  set_data (with_offsets d (replicate nbands o)).

(** ** Dropping bands *)

(** [all(band in self.bands for band in dropindices)]: [self.bands] is
    read once per element, and [all] stops at the first [False]. *)
Fixpoint all_in_bands (dropindices : list string) : M bool :=
  match dropindices with
  | [] => ret true
  | band :: rest =>
      bs <- get_bands ;;
      if bool_decide (band ∈ bs) then all_in_bands rest else ret false
  end.

(** [l.index(x)] *)
Definition index (l : list string) (x : string) : result nat :=
  match list_find (λ y, y = x) l with
  | Some (i, _) => Ok i
  | None => Raise (ValueError (x ++ " is not in list")%string)
  end.

(** [[self.bands.index(ind_id)+1 for ind_id in dropindices]] *)
Fixpoint drop_labels (dropindices : list string) : M (list Z) :=
  match dropindices with
  | [] => ret []
  | ind_id :: rest =>
      bs <- get_bands ;;
      i <- lift (index bs ind_id) ;;
      ls <- drop_labels rest ;;
      ret (Z.of_nat i + 1 :: ls)
  end.

(** [DataArray.drop(dim='band', labels=...)]: the bands carrying one of the
    labels go; a label that no band carries is an error. *)
Definition da_drop (d : DataArray) (labels : list Z) : result DataArray :=
  if bool_decide (Forall (λ l, l ∈ (da_bands d).*1) labels)
  then Ok (with_bands d
             (filter (λ b : Z * list pixel, b.1 ∉ labels) (da_bands d)))
  else Raise (KeyError "labels not found in axis").

(** [Raster.dropindices(dropindices)] *)
Definition dropindices (dropindices : list string) : M unit :=
  ok <- all_in_bands dropindices ;;
  if negb ok then raise (AssertionError "Specified band not in raster.")
  else
    dropind <- drop_labels dropindices ;;
    d <- get_data ;;
    d' <- lift (da_drop d dropind) ;;
    set_data d' ;;;
    bs <- get_bands ;;
    set_bands (Some (filter (λ band, band ∉ dropindices) bs)).

(** ** Writing a prediction *)

(** What a later read reports of a raster that has just been written,
    besides its profile and its band: GDAL derives them from the file. *)
Record Derived : Type := {
  der_mask1 : list Z;
  der_scales : list Z;
  der_offsets : list Z;
  der_nodatavals : list Z
}.

(** How [rio.open(output, 'w', **meta)] followed by [dst.write(array, 1)]
    ends: with an exception (a directory that does not exist, no
    permission, a profile or an array rasterio refuses), [found] being what
    the attempt has put at the path, if anything; or with the raster
    stored. *)
Inductive write_outcome : Type :=
  | Fails (e : exn) (found : option FsEntry)
  | Stored (rest : Derived).

(** What the class touches outside itself: the files it reads and writes,
    the numpy arrays of its caller, and the answer of rasterio and of the
    file system to a request to write a raster. *)
Record World : Type := {
  files : gmap string FsEntry;
  arrays : gmap positive NdArray;
  rio_write : string → Profile → NdArray → write_outcome
}.

(** [astype('int16')] and every store into an int16 array. *)
Definition int16 (z : Z) : Z := (z + 32768) mod 65536 - 32768.

(** [a[a == 0] = v] on an int16 array. *)
Definition stamp_zero (v : Z) (a : list Z) : list Z :=
  map (λ m, if m =? 0 then int16 v else m) a.

(** [prediction[a == v] = a[a == v]]: the selected entries of [a], in
    order, go to the selected positions of [prediction], an array of
    dtype [dt]. *)
Definition stamp_equal (dt : dtype) (v : Z) (a prediction : list Z) : list Z :=
  zip_with (λ m p, if m =? v then astype dt m else p) a prediction.

(** The prediction after lines 162 and 163, [mask] being what
    [read_masks(1)] returned. *)
Definition stamped (v : Z) (mask : list Z) (p : NdArray) : NdArray :=
  {| nd_dtype := nd_dtype p;
     nd_shape := nd_shape p;
     nd_flat := stamp_equal (nd_dtype p) v
                  (stamp_zero v (map int16 mask)) (nd_flat p) |}.

Definition out_meta (meta : Profile) : Profile :=
  {| meta_count := 1; meta_dtype := "int16";
     meta_width := meta_width meta; meta_height := meta_height meta;
     meta_other := meta_other meta |}.

(** The raster found at the output path after a write that completed: the
    profile it was created with, and in its one band the array, as
    int16. *)
Definition written_file (meta : Profile) (a : NdArray) (rest : Derived)
  : RasterFile :=
  {| profile := meta;
     pixels := [Num <$> (int16 <$> nd_flat a)];
     mask1 := der_mask1 rest;
     scales := der_scales rest;
     offsets := der_offsets rest;
     nodatavals := der_nodatavals rest |}.

(** [Raster.toraster(rast, prediction, output)]; [prediction] is the
    reference of an array in the caller's store.  The array is assigned
    to before the output is opened. *)
Definition toraster (self : Raster) (rast : string) (prediction : positive)
    (output : string) (w : World) : World * result unit :=
  match files w !! rast with
  | Some (Tif src) =>
      let meta := profile src in
      let shape := (meta_height meta, meta_width meta) in
      match nodataval self with
      | None => (w, Raise (AttributeError "nodataval"))
      | Some [] => (w, Raise (IndexError "tuple index out of range"))
      | Some (v :: _) =>
          match arrays w !! prediction with
          | None => (w, Raise (TypeError "prediction"))
          | Some p =>
              if bool_decide (nd_shape p = shape)
              then
                let p' := stamped v (mask1 src) p in
                let arrays' := <[prediction := p']> (arrays w) in
                match rio_write w output (out_meta meta) p' with
                | Fails e found =>
                    ({| files := match found with
                                 | Some entry => <[output := entry]> (files w)
                                 | None => files w
                                 end;
                        arrays := arrays';
                        rio_write := rio_write w |}, Raise e)
                | Stored rest =>
                    ({| files := <[output := Tif (written_file (out_meta meta)
                                                     p' rest)]> (files w);
                        arrays := arrays';
                        rio_write := rio_write w |}, Ok tt)
                end
              else (w, Raise (IndexError "boolean index did not match"))
          end
      end
  | _ => (w, Raise (RasterioIOError rast))
  end.

(** ** The band invariant *)

(** [len(self.bands) == self.data.shape[0]] *)
Definition band_invariant (self : Raster) : Prop :=
  match data self, bands self with
  | Some d, Some (Some bs) => length bs = length (da_bands d)
  | _, _ => False
  end.

(** ** Vocabulary of the statements *)

(** Whether [name] occurs in [msg]. *)
Definition mentions (msg name : string) : bool :=
  bool_decide (is_Some (String.index 0 name msg)).

(** The bands the loop appends when its counter starts at [n]: the
    functions' outputs, pixels and name, labelled [n + 1], [n + 2], ... *)
Fixpoint labelled (n : nat) (outs : list (list pixel * string))
  : list (Z * list pixel) :=
  match outs with
  | [] => []
  | o :: rest => (Z.of_nat (S n), o.1) :: labelled (S n) rest
  end.

(** Where [l.index(x)] finds [x]. *)
Definition position (l : list string) (x : string) : nat :=
  match list_find (λ y, y = x) l with
  | Some (i, _) => i
  | None => 0
  end.

(** The labels [dropindices] asks xarray to drop. *)
Definition dropind_of (bs ds : list string) : list Z :=
  map (λ x, Z.of_nat (position bs x) + 1) ds.

(** ** Sample inputs

    A three-band raster of one row and two columns whose second pixel is
    invalid, and a single-band raster whose no-data value is 0. *)
Module Samples.

Definition meta3 : Profile :=
  {| meta_count := 3; meta_dtype := "uint16"; meta_width := 2;
     meta_height := 1; meta_other := [("driver", "GTiff")] |}.

Definition tif3 : RasterFile :=
  {| profile := meta3;
     pixels := [[Num 10; Num 11]; [Num 20; Num 21]; [Num 30; Num 31]];
     mask1 := [255; 0];
     scales := [1; 1; 1];
     offsets := [0; 0; 0];
     nodatavals := [-9999; -9999; -9999] |}.

Definition meta1 : Profile :=
  {| meta_count := 1; meta_dtype := "uint8"; meta_width := 2;
     meta_height := 1; meta_other := [("driver", "GTiff")] |}.

Definition tif1 : RasterFile :=
  {| profile := meta1;
     pixels := [[Num 7; Num 0]];
     mask1 := [255; 0];
     scales := [1];
     offsets := [0];
     nodatavals := [0] |}.

Definition disk : gmap string FsEntry :=
  <["a.tif" := Tif tif3]> (<["b.tif" := Tif tif1]> ∅).

Definition dataABC : DataArray :=
  {| da_bands := [(1, [Num 10; Num 11]); (2, [Num 20; Num 21]);
                   (3, [Num 30; Num 31])];
     da_y := 1; da_x := 2;
     attrs_scales := [1; 1; 1]; attrs_offsets := [0; 0; 0];
     attrs_nodatavals := [-9999; -9999; -9999] |}.

(** [Raster('a.tif', ['A', 'B', 'C'])] *)
Definition rasterABC : Raster :=
  (new_Raster disk (Some "a.tif") (Some ["A"; "B"; "C"])).1.

(** [Raster('b.tif', ['Z'])] *)
Definition rasterZ : Raster :=
  (new_Raster disk (Some "b.tif") (Some ["Z"])).1.

(** An index function that returns a constant band named after the number
    of bands it is shown, and refuses to run unless the band called
    [needs] is already among them. *)
Definition counting_index (needs : string) : index_function :=
  λ d bs factor,
    if bool_decide (needs ∈ bs)
    then Ok (with_bands d [(0, [Num (Z.of_nat (length bs)); Num factor])],
             ("N" ++ String (Ascii.ascii_of_nat (48 + length bs)) "")%string)
    else Raise (ValueError (needs ++ " is not in list")%string).

(** A file system on which every path can be written except those under
    a directory that does not exist; a raster written there is all valid,
    with scale 1, offset 0 and no-data value 0. *)
Definition rio_write_sample : string → Profile → NdArray → write_outcome :=
  λ path meta a,
    if String.prefix "/no/such/dir/" path
    then Fails (RasterioIOError path) None
    else Stored {| der_mask1 := replicate (length (nd_flat a)) 255;
                   der_scales := [1]; der_offsets := [0];
                   der_nodatavals := [0] |}.

(** A caller's store with one int16 prediction array of one row and two
    columns. *)
Definition world (p : list Z) : World :=
  {| files := disk;
     arrays := <[1%positive := {| nd_dtype := Int 16;
                                  nd_shape := (1%nat, 2%nat);
                                  nd_flat := p |}]> ∅;
     rio_write := rio_write_sample |}.

End Samples.

(** ** Labels that follow the positions *)

(** The bands of [data] carry the labels 1, ..., [len(bands)], in order: what
    loading produces, and what [dropindices] relies on when it turns the
    position of a name into a label. *)
Definition contiguous_labels (self : Raster) : Prop :=
  match data self, bands self with
  | Some d, Some (Some bs) =>
      (da_bands d).*1 = (λ i, Z.of_nat (S i)) <$> seq 0 (length bs)
  | _, _ => False
  end.

(** ** The unit tests at the end of the file *)

(** Every pixel of every band, in order. *)
Definition all_pixels (d : DataArray) : list pixel := mjoin (da_bands d).*2.

(** The pixels that are numbers. *)
Definition numbers (l : list pixel) : list Z :=
  omap (λ p, match p with Num z => Some z | NaN => None end) l.

(** [data.min().values]: numpy refuses to reduce an empty array; xarray
    skips the NaN of a float array, and answers NaN when nothing else is
    there. *)
Definition da_min (d : DataArray) : result pixel :=
  match all_pixels d with
  | [] => Raise (ValueError "zero-size array to reduction operation minimum")
  | _ :: _ =>
      match numbers (all_pixels d) with
      | [] => Ok NaN
      | z :: zs => Ok (Num (foldr Z.min z zs))
      end
  end.

(** [data.max().values] *)
Definition da_max (d : DataArray) : result pixel :=
  match all_pixels d with
  | [] => Raise (ValueError "zero-size array to reduction operation maximum")
  | _ :: _ =>
      match numbers (all_pixels d) with
      | [] => Ok NaN
      | z :: zs => Ok (Num (foldr Z.max z zs))
      end
  end.

(** [assert cond, msg] *)
Definition assert (cond : bool) (msg : string) : M unit :=
  if cond then ret tt else raise (AssertionError msg).

(** The local variables of the script. *)
Definition test_bands : list string :=
  ["CoastalBlue"; "Blue"; "Green"; "Yellow"; "Red"; "RedEdge"; "NIR1"; "NIR2"].

Definition unit_tests : list Z := [4].

(** Unit test 1: create the raster object. *)
Definition unit_test_1 (fs : gmap string FsEntry) (filename : string) : M unit :=
  init fs (Some filename) (Some test_bands) ;;;
  d <- get_data ;;
  assert (length (da_bands d) =? 8)%nat "Number of bands should be 8.".

(** Unit test 2: read the raster file through the method. *)
Definition unit_test_2 (fs : gmap string FsEntry) (filename : string) : M unit :=
  init fs None None ;;;
  readraster fs filename (Some test_bands) ;;;
  d <- get_data ;;
  assert (length (da_bands d) =? 8)%nat "Number of bands should be 8.".

(** Unit test 3: add three indices; [fdi], [si] and [ndwi] are the functions
    of [xrasterlib.indices] the script names. *)
Definition unit_test_3 (fs : gmap string FsEntry) (filename : string)
    (fdi si ndwi : index_function) : M unit :=
  init fs (Some filename) (Some test_bands) ;;;
  addindices [fdi; si; ndwi] 10000 ;;;
  d <- get_data ;;
  assert (length (da_bands d) =? 11)%nat "Number of bands should be 11.".

(** Unit test 4: clip below 0 and above 10000. *)
Definition unit_test_4 (fs : gmap string FsEntry) (filename : string) : M unit :=
  init fs (Some filename) (Some test_bands) ;;;
  preprocess ">" (Num 0) (Num 0) ;;;
  d <- get_data ;;
  m <- lift (da_min d) ;;
  assert (pixel_eqb m (Num 0)) "Minimum should be 0." ;;;
  preprocess "<" (Num 10000) (Num 10000) ;;;
  d <- get_data ;;
  m <- lift (da_max d) ;;
  assert (pixel_eqb m (Num 10000)) "Maximum should be 10000.".

(** One test of the script: skipped unless its number is in [unit_tests],
    run on an object of its own otherwise. *)
Definition run_test (n : Z) (test : M unit) : result unit :=
  if bool_decide (n ∈ unit_tests) then (test empty_raster).2 else Ok tt.

(** The script, called with the path of a raster: the tests in order, up
    to the first that raises.  The tests share the list [bands], which test
    3 would lengthen; with [unit_tests = [4]] a single test uses it. *)
Definition main (fs : gmap string FsEntry) (filename : string)
    (fdi si ndwi : index_function) : result unit :=
  match run_test 1 (unit_test_1 fs filename) with
  | Raise e => Raise e
  | Ok _ =>
      match run_test 2 (unit_test_2 fs filename) with
      | Raise e => Raise e
      | Ok _ =>
          match run_test 3 (unit_test_3 fs filename fdi si ndwi) with
          | Raise e => Raise e
          | Ok _ => run_test 4 (unit_test_4 fs filename)
          end
      end
  end.

(** ** More sample inputs

    A raster whose bands have different scales and offsets, an index
    function that returns two bands instead of one, and one that raises. *)
Module MoreSamples.

Definition tif_scaled : RasterFile :=
  {| profile := Samples.meta3;
     pixels := [[Num (-5); Num 11]; [Num 20; Num 12000]; [Num 30; Num 31]];
     mask1 := [255; 0];
     scales := [2; 3; 4];
     offsets := [5; 6; 7];
     nodatavals := [255; 255; 255] |}.

Definition disk : gmap string FsEntry :=
  <["s.tif" := Tif tif_scaled]> Samples.disk.

(** [Raster('s.tif', ['A', 'B', 'C'])] *)
Definition rasterS : Raster :=
  (new_Raster disk (Some "s.tif") (Some ["A"; "B"; "C"])).1.


Definition failing_index : index_function :=
  λ d bs factor, Raise (ValueError "'NIR1' is not in list").

(** A float raster with a NaN pixel, none at or below 0, one above
    10000. *)
Definition tif_nan : RasterFile :=
  {| profile := Samples.meta1;
     pixels := [[NaN; Num 12000]];
     mask1 := [0; 255];
     scales := [1];
     offsets := [0];
     nodatavals := [0] |}.

Definition disk_nan : gmap string FsEntry := <["n.tif" := Tif tif_nan]> ∅.

(** [Raster('n.tif', ['Z'])] *)
Definition rasterN : Raster :=
  (new_Raster disk_nan (Some "n.tif") (Some ["Z"])).1.




End MoreSamples.

(** ** Running the monad *)

Lemma bind_Ok {A B} (m : M A) (k : A → M B) self self' a :
  m self = (self', Ok a) → bind m k self = k a self'.
Proof. intros H. unfold bind. by rewrite H. Qed.

Lemma bind_inv_Ok {A B} (m : M A) (k : A → M B) self self'' b :
  bind m k self = (self'', Ok b) →
  ∃ self' a, m self = (self', Ok a) ∧ k a self' = (self'', Ok b).
Proof.
  unfold bind. destruct (m self) as [self' [a|e]]; [eauto | discriminate].
Qed.

Lemma get_data_Some self d : data self = Some d → get_data self = (self, Ok d).
Proof. intros H. unfold get_data. by rewrite H. Qed.

Lemma get_bands_Some self bs :
  bands self = Some (Some bs) → get_bands self = (self, Ok bs).
Proof. intros H. unfold get_bands. by rewrite H. Qed.

Lemma get_data_inv self self' d :
  get_data self = (self', Ok d) → self' = self ∧ data self = Some d.
Proof. unfold get_data. destruct (data self); naive_solver. Qed.

Lemma get_bands_inv self self' bs :
  get_bands self = (self', Ok bs) → self' = self ∧ bands self = Some (Some bs).
Proof.
  unfold get_bands. destruct (bands self) as [[?|]|]; intros [= <- <-] || intros [=]; done.
Qed.

(** ** The operator table *)

Lemma ops_gt : ops !! ">" = Some pixel_gt.
Proof. reflexivity. Qed.

Lemma ops_lt : ops !! "<" = Some pixel_lt.
Proof. reflexivity. Qed.

Lemma ops_None op : ops !! op = None ↔ op ≠ "<" ∧ op ≠ ">".
Proof.
  unfold ops. rewrite !lookup_insert_None, lookup_empty.
  intuition congruence.
Qed.

Lemma ops_dom : dom ops = ({["<"; ">"]} : gset string).
Proof. unfold ops. rewrite !dom_insert_L, dom_empty_L. set_solver. Qed.

(** ** Thresholding *)

Lemma da_where_lookup d cond other k l px :
  da_bands d !! k = Some (l, px) →
  da_bands (da_where d cond other) !! k
  = Some (l, map (λ p, if cond p then p else other) px).
Proof. intros H. simpl. rewrite list_lookup_fmap, H. done. Qed.

Lemma da_where_shape d cond other :
  da_shape (da_where d cond other) = da_shape d.
Proof. unfold da_shape. simpl. by rewrite length_map. Qed.

Lemma da_where_idem d cond other :
  da_where (da_where d cond other) cond other = da_where d cond other.
Proof.
  unfold da_where, with_bands. simpl. f_equal.
  rewrite <- list_fmap_compose. apply list_fmap_ext. intros _ [l px] _.
  simpl. f_equal. rewrite <- list_fmap_compose. apply list_fmap_ext.
  intros _ p _. simpl. destruct (cond p) eqn:Hp; [by rewrite Hp|].
  by destruct (cond other).
Qed.

Lemma preprocess_run self d op cmp boundary replace :
  data self = Some d → ops !! op = Some cmp →
  preprocess op boundary replace self
  = ({| data := Some (da_where d (λ p, cmp p boundary) replace);
        bands := bands self; nodataval := nodataval self |}, Ok tt).
Proof.
  intros Hd Hop. unfold preprocess.
  rewrite (bind_Ok _ _ _ _ _ (get_data_Some _ _ Hd)). by rewrite Hop.
Qed.

(** C6: after [preprocess('>', b, r)] every pixel [p] of every band is [p]
    if [p > b] and [r] otherwise, after [preprocess('<', b, r)] it is [p] if
    [p < b] and [r] otherwise; the bands keep their labels and the array
    keeps its shape. *)
Theorem preprocess_threshold (self : Raster) (d : DataArray) (b r : pixel) :
  data self = Some d →
  (∃ d', preprocess ">" b r self
         = ({| data := Some d'; bands := bands self;
               nodataval := nodataval self |}, Ok tt) ∧
         da_shape d' = da_shape d ∧
         ∀ k l px, da_bands d !! k = Some (l, px) →
           ∃ px', da_bands d' !! k = Some (l, px') ∧
                  length px' = length px ∧
                  ∀ i p, px !! i = Some p →
                         px' !! i = Some (if pixel_gt p b then p else r)) ∧
  (∃ d', preprocess "<" b r self
         = ({| data := Some d'; bands := bands self;
               nodataval := nodataval self |}, Ok tt) ∧
         da_shape d' = da_shape d ∧
         ∀ k l px, da_bands d !! k = Some (l, px) →
           ∃ px', da_bands d' !! k = Some (l, px') ∧
                  length px' = length px ∧
                  ∀ i p, px !! i = Some p →
                         px' !! i = Some (if pixel_lt p b then p else r)).
Proof.
  intros Hd. split.
  - eexists. split; [apply (preprocess_run _ _ _ _ _ _ Hd ops_gt)|].
    split; [apply da_where_shape|]. intros k l px Hk.
    eexists. split; [by apply da_where_lookup|].
    split; [by rewrite length_map|].
    intros i p Hi. by rewrite list_lookup_fmap, Hi.
  - eexists. split; [apply (preprocess_run _ _ _ _ _ _ Hd ops_lt)|].
    split; [apply da_where_shape|]. intros k l px Hk.
    eexists. split; [by apply da_where_lookup|].
    split; [by rewrite length_map|].
    intros i p Hi. by rewrite list_lookup_fmap, Hi.
Qed.

Lemma preprocess_threshold_witness :
  data Samples.rasterABC = Some Samples.dataABC ∧
  ∃ d', preprocess ">" (Num 10) (Num 0) Samples.rasterABC
        = ({| data := Some d'; bands := bands Samples.rasterABC;
              nodataval := nodataval Samples.rasterABC |}, Ok tt) ∧
        ∃ px', da_bands d' !! 0%nat = Some (1, px') ∧
               px' !! 0%nat = Some (Num 0) ∧ px' !! 1%nat = Some (Num 11).
Proof.
  split; [reflexivity|].
  destruct (preprocess_threshold Samples.rasterABC Samples.dataABC
              (Num 10) (Num 0) eq_refl) as [(d' & Hrun & _ & Hpx) _].
  exists d'. split; [exact Hrun|].
  destruct (Hpx 0%nat 1 [Num 10; Num 11] eq_refl) as (px' & Hk & _ & Hp).
  exists px'. split; [exact Hk|].
  split; [exact (Hp 0%nat (Num 10) eq_refl)
         | exact (Hp 1%nat (Num 11) eq_refl)].
Defined.

(** C7: thresholding with ['>'] twice leaves the object as thresholding
    once does, whatever the boundary and the replacement. *)
Theorem preprocess_gt_idempotent (self : Raster) (b r : pixel) :
  preprocess ">" b r (preprocess ">" b r self).1 = preprocess ">" b r self.
Proof.
  destruct (data self) as [d|] eqn:Hd.
  - rewrite (preprocess_run self d ">" pixel_gt b r Hd ops_gt). simpl.
    erewrite preprocess_run; [|reflexivity|apply ops_gt]. simpl.
    by rewrite da_where_idem.
  - unfold preprocess, bind, get_data. rewrite Hd. simpl. by rewrite Hd.
Qed.

(** C8: on a loaded raster [preprocess] fails exactly when the operator is
    neither ['<'] nor ['>']; the failure is the [KeyError] of the lookup in
    the table [ops], whose keys are those two strings and nothing else, and
    it leaves the object as it was. *)
Theorem preprocess_unsupported_operator
    (self : Raster) (d : DataArray) (op : string) (b r : pixel) :
  data self = Some d →
  ((∃ e, (preprocess op b r self).2 = Raise e) ↔ op ≠ "<" ∧ op ≠ ">") ∧
  (∀ e, (preprocess op b r self).2 = Raise e →
        e = KeyError op ∧ (preprocess op b r self).1 = self) ∧
  dom ops = ({["<"; ">"]} : gset string).
Proof.
  intros Hd. destruct (ops !! op) as [cmp|] eqn:Hop.
  - rewrite (preprocess_run self d op cmp b r Hd Hop). simpl.
    assert (¬ (op ≠ "<" ∧ op ≠ ">")) as Hin.
    { rewrite <- ops_None. congruence. }
    split; [|split; [|apply ops_dom]].
    + split; [intros [e [=]] | done].
    + intros e [=].
  - assert (preprocess op b r self = (self, Raise (KeyError op))) as ->.
    { unfold preprocess.
      rewrite (bind_Ok _ _ _ _ _ (get_data_Some _ _ Hd)). by rewrite Hop. }
    simpl. split; [|split; [|apply ops_dom]].
    + split; [intros _; by apply ops_None | eauto].
    + by intros e [= <-].
Qed.

Lemma preprocess_unsupported_operator_witness :
  data Samples.rasterABC = Some Samples.dataABC ∧
  (preprocess "==" (Num 10) (Num 0) Samples.rasterABC).2
  = Raise (KeyError "==") ∧
  (preprocess "==" (Num 10) (Num 0) Samples.rasterABC).1 = Samples.rasterABC.
Proof.
  split; [reflexivity|].
  destruct (preprocess_unsupported_operator Samples.rasterABC
              Samples.dataABC "==" (Num 10) (Num 0) eq_refl)
    as (Hiff & Herr & _).
  destruct (proj2 Hiff) as [e He]; [split; discriminate|].
  destruct (Herr e He) as [-> Hself]. by split.
Defined.

(** ** The two ways to load *)

(** With an existing path and a band list, the constructor and
    [readraster] on an empty object do the same. *)
Lemma eager_two_phase_agree fs f bs :
  isfile fs f = true →
  new_Raster fs (Some f) (Some bs) = readraster fs f (Some bs) empty_raster.
Proof. intros H. unfold new_Raster, init, readraster. by rewrite H. Qed.

(** C1: the two entry points differ in their checks.  With the band list
    omitted the constructor raises its [RuntimeError] while [readraster]
    returns normally and stores [None] as the band list; with a path that
    does not exist the constructor raises its own [RuntimeError] while
    [readraster] lets the error of [xr.open_rasterio] through. *)
Theorem readraster_lacks_init_checks :
  new_Raster Samples.disk (Some "a.tif") None
  = ({| data := Some Samples.dataABC; bands := None; nodataval := None |},
     Raise (RuntimeError
       "Must specify band names. Refer to documentation for details.")) ∧
  readraster Samples.disk "a.tif" None empty_raster
  = ({| data := Some Samples.dataABC; bands := Some None;
        nodataval := Some [-9999; -9999; -9999] |}, Ok tt) ∧
  new_Raster Samples.disk (Some "missing.tif") (Some ["A"])
  = (empty_raster, Raise (RuntimeError "missing.tif does not exist")) ∧
  readraster Samples.disk "missing.tif" (Some ["A"]) empty_raster
  = (empty_raster, Raise (RasterioIOError "missing.tif")).
Proof. repeat split; vm_compute; reflexivity. Qed.

(** ** A failed [dropindices] *)

Lemma all_in_bands_run self bs ds :
  bands self = Some (Some bs) →
  all_in_bands ds self = (self, Ok (forallb (λ x, bool_decide (x ∈ bs)) ds)).
Proof.
  intros Hbs. induction ds as [|x ds IH]; [done|].
  simpl. rewrite (bind_Ok _ _ _ _ _ (get_bands_Some _ _ Hbs)).
  destruct (bool_decide (x ∈ bs)); [exact IH | done].
Qed.

Lemma forallb_missing (bs ds : list string) x :
  x ∈ ds → x ∉ bs → forallb (λ x, bool_decide (x ∈ bs)) ds = false.
Proof.
  intros Hin Hout. induction Hin as [x ds | x y ds Hin IH]; simpl.
  - by rewrite bool_decide_eq_false_2.
  - rewrite IH by done. apply andb_false_r.
Qed.

(** C9, as claimed, fails: the message of the error is a fixed sentence,
    which does not name the band that is missing. *)
Lemma dropindices_message_omits_name :
  ("X" ∉ ["A"; "B"; "C"]) ∧
  dropindices ["X"] Samples.rasterABC
  = (Samples.rasterABC,
     Raise (AssertionError "Specified band not in raster.")) ∧
  mentions "Specified band not in raster." "X" = false.
Proof.
  split; [compute_done|].
  split; vm_compute; reflexivity.
Qed.

(** C9, amended: when some name of the list is not a band of the raster,
    [dropindices] raises the [AssertionError] with its fixed message and
    leaves [data], [bands] and [nodataval] as they were. *)
Theorem dropindices_missing_band_fails
    (self : Raster) (bs ds : list string) (x : string) :
  bands self = Some (Some bs) →
  x ∈ ds → x ∉ bs →
  dropindices ds self
  = (self, Raise (AssertionError "Specified band not in raster.")).
Proof.
  intros Hbs Hin Hout. unfold dropindices.
  rewrite (bind_Ok _ _ _ _ _ (all_in_bands_run _ _ ds Hbs)).
  by rewrite (forallb_missing bs ds x Hin Hout).
Qed.

Lemma dropindices_missing_band_fails_witness :
  dropindices ["A"; "X"] Samples.rasterABC
  = (Samples.rasterABC,
     Raise (AssertionError "Specified band not in raster.")).
Proof.
  apply (dropindices_missing_band_fails Samples.rasterABC
           ["A"; "B"; "C"] ["A"; "X"] "X").
  - reflexivity.
  - compute_done.
  - compute_done.
Defined.

(** ** Writing a prediction *)

Lemma int16_id z : -32768 ≤ z ≤ 32767 → int16 z = z.
Proof. intros H. unfold int16. rewrite Z.mod_small; lia. Qed.

Lemma astype_int16 z : astype (Int 16) z = int16 z.
Proof. reflexivity. Qed.

(** What the two assignments of [toraster] leave at position [i]. *)
Lemma stamp_lookup dt v (mask p : list Z) i m x :
  mask !! i = Some m → p !! i = Some x →
  stamp_equal dt v (stamp_zero v (map int16 mask)) p !! i
  = Some (let m' := if int16 m =? 0 then int16 v else int16 m in
          if m' =? v then astype dt m' else x).
Proof.
  intros Hm Hx. unfold stamp_equal, stamp_zero.
  rewrite lookup_zip_with, !list_lookup_fmap, Hm, Hx. done.
Qed.

Lemma stamp_invalid dt v (mask p : list Z) i x :
  -32768 ≤ v ≤ 32767 →
  mask !! i = Some 0 → p !! i = Some x →
  stamp_equal dt v (stamp_zero v (map int16 mask)) p !! i
  = Some (astype dt v).
Proof.
  intros Hv Hm Hx. rewrite (stamp_lookup dt v mask p i 0 x Hm Hx). simpl.
  rewrite (int16_id v Hv), Z.eqb_refl. done.
Qed.

Lemma stamp_valid dt v (mask p : list Z) i m x :
  0 < m ≤ 255 → m ≠ v →
  mask !! i = Some m → p !! i = Some x →
  stamp_equal dt v (stamp_zero v (map int16 mask)) p !! i = Some x.
Proof.
  intros Hrange Hne Hm Hx. rewrite (stamp_lookup dt v mask p i m x Hm Hx).
  simpl. rewrite (int16_id m) by lia.
  destruct (Z.eqb_spec m 0) as [?|_]; [lia|].
  by destruct (Z.eqb_spec m v).
Qed.

Lemma stamp_length dt v (mask p : list Z) :
  length p = length mask →
  length (stamp_equal dt v (stamp_zero v (map int16 mask)) p) = length p.
Proof.
  intros H. unfold stamp_equal, stamp_zero.
  rewrite length_zip_with, !length_map. lia.
Qed.

(** A stamped int16 array is an int16 array. *)
Lemma stamp_in_range v (mask p : list Z) :
  -32768 ≤ v ≤ 32767 →
  Forall (λ x, -32768 ≤ x ≤ 32767) p →
  Forall (λ x, -32768 ≤ x ≤ 32767)
    (stamp_equal (Int 16) v (stamp_zero v (map int16 mask)) p).
Proof.
  intros Hv Hp. unfold stamp_equal.
  generalize (stamp_zero v (map int16 mask)). intros a. revert a.
  induction Hp as [|x p Hx _ IH]; intros [|m a]; cbn [zip_with];
    try constructor.
  - destruct (Z.eqb_spec m v) as [->|_]; [|done].
    rewrite astype_int16, int16_id; done.
  - apply IH.
Qed.

Lemma fmap_int16_id (l : list Z) :
  Forall (λ x, -32768 ≤ x ≤ 32767) l → int16 <$> l = l.
Proof.
  induction 1 as [|x l Hx _ IH]; [done|].
  rewrite fmap_cons, IH. by rewrite int16_id.
Qed.

(** [toraster] when nothing raises. *)
Lemma toraster_run self rast pred output w src v vs p rest :
  files w !! rast = Some (Tif src) →
  nodataval self = Some (v :: vs) →
  arrays w !! pred = Some p →
  nd_shape p = (meta_height (profile src), meta_width (profile src)) →
  rio_write w output (out_meta (profile src)) (stamped v (mask1 src) p)
  = Stored rest →
  toraster self rast pred output w
  = ({| files := <[output := Tif (written_file (out_meta (profile src))
                                    (stamped v (mask1 src) p) rest)]>
                   (files w);
        arrays := <[pred := stamped v (mask1 src) p]> (arrays w);
        rio_write := rio_write w |}, Ok tt).
Proof.
  intros Hf Hv Hp Hs Hw. unfold toraster. rewrite Hf, Hv, Hp.
  rewrite bool_decide_eq_true_2 by done. by rewrite Hw.
Qed.

(** [toraster] when the write raises: the prediction is stamped already. *)
Lemma toraster_write_fails self rast pred output w src v vs p e found :
  files w !! rast = Some (Tif src) →
  nodataval self = Some (v :: vs) →
  arrays w !! pred = Some p →
  nd_shape p = (meta_height (profile src), meta_width (profile src)) →
  rio_write w output (out_meta (profile src)) (stamped v (mask1 src) p)
  = Fails e found →
  toraster self rast pred output w
  = ({| files := match found with
                 | Some entry => <[output := entry]> (files w)
                 | None => files w
                 end;
        arrays := <[pred := stamped v (mask1 src) p]> (arrays w);
        rio_write := rio_write w |}, Raise e).
Proof.
  intros Hf Hv Hp Hs Hw. unfold toraster. rewrite Hf, Hv, Hp.
  rewrite bool_decide_eq_true_2 by done. by rewrite Hw.
Qed.

Lemma toraster_inv self rast pred output w w' :
  toraster self rast pred output w = (w', Ok tt) →
  ∃ src v vs p rest,
    files w !! rast = Some (Tif src) ∧
    nodataval self = Some (v :: vs) ∧
    arrays w !! pred = Some p ∧
    nd_shape p = (meta_height (profile src), meta_width (profile src)) ∧
    rio_write w output (out_meta (profile src)) (stamped v (mask1 src) p)
    = Stored rest.
Proof.
  unfold toraster. intros H.
  destruct (files w !! rast) as [[src|]|]; try discriminate.
  destruct (nodataval self) as [[|v vs]|]; try discriminate.
  destruct (arrays w !! pred) as [p|]; try discriminate.
  case_bool_decide; [|discriminate].
  destruct (rio_write w output _ _) as [e found|rest] eqn:Hw;
    [discriminate|].
  by exists src, v, vs, p, rest.
Qed.

(** C2, as claimed, fails: the reference raster marks one pixel invalid,
    yet two pixels of the raster written hold the no-data value, the
    valid one because the prediction already had that value there. *)
Lemma toraster_footprint_not_exact :
  nodataval Samples.rasterZ = Some [0] ∧
  length (filter (λ m, m = 0) (mask1 Samples.tif1)) = 1%nat ∧
  mask1 Samples.tif1 !! 0%nat = Some 255 ∧
  ∃ w' f band,
    toraster Samples.rasterZ "b.tif" 1 "out.tif" (Samples.world [0; 1])
    = (w', Ok tt) ∧
    files w' !! "out.tif" = Some (Tif f) ∧
    pixels f = [band] ∧
    band !! 0%nat = Some (Num 0) ∧
    length (filter (λ x, x = Num 0) band) = 2%nat.
Proof.
  repeat (split; [vm_compute; reflexivity|]).
  eexists _, _, _.
  split; [vm_compute; reflexivity|].
  split; [vm_compute; reflexivity|].
  split; [reflexivity|].
  split; vm_compute; reflexivity.
Qed.

(** C2, amended: when the captured [nodataval[0]] is an int16 value, the
    prediction is an int16 array of the shape of the reference raster and
    the write of the output does not raise, [toraster] leaves at the
    output path a raster with band count 1 and data type int16, the other
    metadata being those of the reference, in which every position the
    mask marks invalid (0) holds [nodataval[0]], and every position whose
    mask value is neither 0 nor [nodataval[0]] holds what the prediction
    held there. *)
Theorem toraster_stamps_invalid
    (self : Raster) (rast : string) (pred : positive) (output : string)
    (w : World) (src : RasterFile) (v : Z) (vs : list Z) (p : NdArray)
    (rest : Derived) :
  files w !! rast = Some (Tif src) →
  nodataval self = Some (v :: vs) →
  arrays w !! pred = Some p →
  nd_shape p = (meta_height (profile src), meta_width (profile src)) →
  length (nd_flat p) = length (mask1 src) →
  -32768 ≤ v ≤ 32767 →
  nd_dtype p = Int 16 →
  Forall (λ x, -32768 ≤ x ≤ 32767) (nd_flat p) →
  rio_write w output (out_meta (profile src)) (stamped v (mask1 src) p)
  = Stored rest →
  ∃ w' f band,
    toraster self rast pred output w = (w', Ok tt) ∧
    files w' !! output = Some (Tif f) ∧
    meta_count (profile f) = 1%nat ∧ meta_dtype (profile f) = "int16" ∧
    meta_width (profile f) = meta_width (profile src) ∧
    meta_height (profile f) = meta_height (profile src) ∧
    meta_other (profile f) = meta_other (profile src) ∧
    pixels f = [Num <$> band] ∧
    length band = length (nd_flat p) ∧
    (∀ i, mask1 src !! i = Some 0 → band !! i = Some v) ∧
    (∀ i m x, mask1 src !! i = Some m → 0 < m ≤ 255 → m ≠ v →
              nd_flat p !! i = Some x → band !! i = Some x).
Proof.
  intros Hf Hv Hp Hs Hlen Hrange Hdt Hwf Hw.
  eexists _, _, (nd_flat (stamped v (mask1 src) p)).
  split; [by apply (toraster_run _ _ _ _ _ _ _ _ _ _ Hf Hv Hp Hs Hw)|].
  cbn [files fst]. split; [by rewrite lookup_insert_eq|].
  do 5 (split; [reflexivity|]).
  split.
  { cbn [pixels written_file stamped nd_flat nd_dtype]. rewrite Hdt.
    by rewrite fmap_int16_id by by apply stamp_in_range. }
  cbn [stamped nd_flat].
  split; [by apply stamp_length|]. split.
  - intros i Hm.
    destruct (lookup_lt_is_Some_2 (nd_flat p) i) as [x Hx].
    { rewrite Hlen. by apply lookup_lt_Some in Hm. }
    rewrite (stamp_invalid _ v _ _ i x Hrange Hm Hx), Hdt.
    by rewrite astype_int16, int16_id.
  - intros i m x Hm Hm255 Hne Hx. by apply (stamp_valid _ v _ _ i m x).
Qed.

Lemma toraster_stamps_invalid_witness :
  ∃ w' f,
    toraster Samples.rasterABC "a.tif" 1 "out.tif" (Samples.world [1; 1])
    = (w', Ok tt) ∧
    files w' !! "out.tif" = Some (Tif f) ∧
    meta_count (profile f) = 1%nat ∧ meta_dtype (profile f) = "int16" ∧
    pixels f = [[Num 1; Num (-9999)]].
Proof.
  destruct (toraster_stamps_invalid Samples.rasterABC "a.tif" 1 "out.tif"
              (Samples.world [1; 1]) Samples.tif3 (-9999) [-9999; -9999]
              {| nd_dtype := Int 16; nd_shape := (1%nat, 2%nat);
                 nd_flat := [1; 1] |}
              {| der_mask1 := [255; 255]; der_scales := [1];
                 der_offsets := [0]; der_nodatavals := [0] |})
    as (w' & f & band & Hrun & Hw & Hc & Hd & _ & _ & _ & Hpx & Hlen
        & Hinv & Hval);
    [reflexivity | reflexivity | reflexivity | reflexivity | reflexivity
    | lia | reflexivity | repeat constructor; lia | reflexivity |].
  exists w', f. repeat (split; [assumption|]).
  rewrite Hpx. destruct band as [|b0 [|b1 [|? ?]]]; try discriminate.
  pose proof (Hval 0%nat 255 1 eq_refl ltac:(lia) ltac:(lia) eq_refl) as H0.
  pose proof (Hinv 1%nat eq_refl) as H1.
  simpl in H0, H1. by simplify_eq.
Defined.



(** ** Adding derived bands *)

Lemma with_bands_id d : with_bands d (da_bands d) = d.
Proof. by destruct d. Qed.

Lemma length_labelled n outs : length (labelled n outs) = length outs.
Proof. revert n. induction outs as [|o outs IH]; intros n; simpl; auto. Qed.

Lemma lookup_labelled n outs i :
  labelled n outs !! i = (λ o, (Z.of_nat (n + S i), o.1)) <$> outs !! i.
Proof.
  revert n i. induction outs as [|o outs IH]; intros n [|i]; simpl; try done.
  - by rewrite Nat.add_1_r.
  - rewrite IH. by replace (S n + S i)%nat with (n + S (S i))%nat by lia.
Qed.

Lemma take_labelled n outs i :
  take i (labelled n outs) = labelled n (take i outs).
Proof.
  revert n i. induction outs as [|o outs IH]; intros n [|i]; simpl; try done.
  by rewrite IH.
Qed.

(** What a completed run of the loop has done. *)
Lemma addindices_loop_inv indices factor :
  ∀ n d bs nd self' n',
    addindices_loop indices factor n
      {| data := Some d; bands := Some (Some bs); nodataval := nd |}
    = (self', Ok n') →
    ∃ outs,
      length outs = length indices ∧
      n' = (n + length indices)%nat ∧
      self' = {| data := Some (with_bands d (da_bands d ++ labelled n outs)%list);
                 bands := Some (Some (bs ++ outs.*2)%list);
                 nodataval := nd |} ∧
      ∀ i f, indices !! i = Some f →
        ∃ band l px name,
          outs !! i = Some (px, name) ∧
          f (with_bands d (da_bands d ++ labelled n (take i outs))%list)
            (bs ++ (take i outs).*2)%list factor = Ok (band, name) ∧
          da_bands band = [(l, px)].
Proof.
  induction indices as [|f rest IH]; intros n d bs nd self' n' Hrun.
  - injection Hrun as <- <-. exists []. simpl.
    rewrite !app_nil_r, with_bands_id, Nat.add_0_r.
    repeat split. intros i f [=].
  - simpl in Hrun. unfold bind at 1 2 3 in Hrun. simpl in Hrun.
    destruct (f d bs factor) as [[band name]|e] eqn:Hf; [|discriminate].
    simpl in Hrun. unfold bind at 1 2 in Hrun. simpl in Hrun.
    unfold set_band_coord in Hrun.
    destruct (da_bands band) as [|[l px] [|? ?]] eqn:Hband;
      simpl in Hrun; try discriminate.
    unfold bind at 1 2 in Hrun. simpl in Hrun.
    apply IH in Hrun as (outs & Hlen & -> & -> & Hcalls).
    exists ((px, name) :: outs). simpl.
    split; [by rewrite Hlen|]. split; [lia|]. split.
    + unfold concat, with_bands. simpl. by rewrite <- !app_assoc.
    + intros [|i] g Hg; simpl in Hg.
      * injection Hg as <-. exists band, l, px, name. simpl.
        by rewrite !app_nil_r, with_bands_id.
      * destruct (Hcalls i g Hg) as (band' & l' & px' & name' & Ho & Hcall & Hb).
        exists band', l', px', name'. split; [done|]. split; [|done].
        simpl. unfold concat, with_bands in Hcall. simpl in Hcall.
        by rewrite <- !app_assoc in Hcall.
Qed.

(** What a completed [addindices] has done. *)
Lemma addindices_inv indices factor self self' :
  addindices indices factor self = (self', Ok tt) →
  ∃ d bs outs s o,
    data self = Some d ∧ bands self = Some (Some bs) ∧
    length outs = length indices ∧
    self' = {| data := Some
                 (with_offsets
                    (with_scales
                       (with_bands d (da_bands d ++ labelled (length bs) outs)%list)
                       (replicate (length bs + length indices) s))
                    (replicate (length bs + length indices) o));
               bands := Some (Some (bs ++ outs.*2)%list);
               nodataval := nodataval self |} ∧
    ∀ i f, indices !! i = Some f →
      ∃ band l px name,
        outs !! i = Some (px, name) ∧
        f (with_bands d (da_bands d ++ labelled (length bs) (take i outs))%list)
          (bs ++ (take i outs).*2)%list factor = Ok (band, name) ∧
        da_bands band = [(l, px)].
Proof.
  unfold addindices. intros Hrun.
  apply bind_inv_Ok in Hrun as (s1 & bs & Hbs & Hrun).
  apply get_bands_inv in Hbs as [-> Hbs].
  apply bind_inv_Ok in Hrun as (s2 & n' & Hloop & Hrun).
  destruct indices as [|f rest].
  - injection Hloop as <- <-.
    apply bind_inv_Ok in Hrun as (s3 & d & Hd & Hrun).
    apply get_data_inv in Hd as [-> Hd].
    destruct self as [sd sb sn]. simpl in Hd, Hbs. subst sd sb.
    unfold bind, lift, first in Hrun. simpl in Hrun.
    destruct (attrs_scales d) as [|s ?] eqn:Hs; [discriminate|].
    simpl in Hrun.
    destruct (attrs_offsets d) as [|o ?] eqn:Ho; [discriminate|].
    injection Hrun as <-.
    exists d, bs, [], s, o. simpl. rewrite !app_nil_r, with_bands_id, Nat.add_0_r.
    repeat split. intros i f [=].
  - assert (∃ d, data self = Some d) as [d Hd].
    { simpl in Hloop. unfold bind at 1 in Hloop.
      unfold get_data in Hloop. destruct (data self); [eauto|discriminate]. }
    destruct self as [sd sb sn]. simpl in Hd, Hbs. subst sd sb.
    apply addindices_loop_inv in Hloop as (outs & Hlen & -> & -> & Hcalls).
    unfold bind, lift, first in Hrun. simpl in Hrun.
    destruct (attrs_scales d) as [|s ?] eqn:Hs; [discriminate|].
    simpl in Hrun.
    destruct (attrs_offsets d) as [|o ?] eqn:Ho; [discriminate|].
    injection Hrun as <-.
    exists d, bs, outs, s, o. by repeat split.
Qed.

(** C5: a call of [addindices] with K index functions that returns has
    appended K names to [bands] and K bands to [data], leaving what was
    there in place.  The i-th function was called on the array and the
    band list as they stood after the first i appends, so the names of the
    bands added before it were in the list it received; the band it
    returned sits at position (original + i) under the label
    [len(bands) + i + 1], and its name at the same position of [bands]. *)
Theorem addindices_appends_in_order
    (indices : list index_function) (factor : Z) (self self' : Raster) :
  addindices indices factor self = (self', Ok tt) →
  ∃ d bs d' bs',
    data self = Some d ∧ bands self = Some (Some bs) ∧
    data self' = Some d' ∧ bands self' = Some (Some bs') ∧
    length bs' = (length bs + length indices)%nat ∧
    length (da_bands d') = (length (da_bands d) + length indices)%nat ∧
    take (length bs) bs' = bs ∧
    take (length (da_bands d)) (da_bands d') = da_bands d ∧
    ∀ i f, indices !! i = Some f →
      ∃ band l px name,
        f (with_bands d (take (length (da_bands d) + i) (da_bands d')))
          (take (length bs + i) bs') factor = Ok (band, name) ∧
        da_bands band = [(l, px)] ∧
        bs' !! (length bs + i)%nat = Some name ∧
        da_bands d' !! (length (da_bands d) + i)%nat
        = Some (Z.of_nat (length bs + S i), px).
Proof.
  intros Hrun.
  apply addindices_inv in Hrun
    as (d & bs & outs & s & o & Hd & Hbs & Hlen & -> & Hcalls).
  eexists d, bs, _, _.
  split; [done|]. split; [done|].
  split; [reflexivity|]. split; [reflexivity|]. simpl.
  split; [by rewrite length_app, length_fmap, Hlen|].
  split; [by rewrite length_app, length_labelled, Hlen|].
  split; [apply take_app_length|]. split; [apply take_app_length|].
  intros i f Hf.
  destruct (Hcalls i f Hf) as (band & l & px & name & Ho & Hcall & Hband).
  exists band, l, px, name.
  rewrite !take_app_add, take_labelled, <- fmap_take.
  split; [done|]. split; [done|]. split.
  - rewrite lookup_app_r by lia.
    replace (length bs + i - length bs)%nat with i by lia.
    by rewrite list_lookup_fmap, Ho.
  - rewrite lookup_app_r by lia.
    replace (length (da_bands d) + i - length (da_bands d))%nat with i by lia.
    by rewrite lookup_labelled, Ho.
Qed.

Lemma addindices_appends_in_order_witness :
  let run := addindices [Samples.counting_index "A";
                         Samples.counting_index "N3"] 7 Samples.rasterABC in
  run.2 = Ok tt ∧
  bands run.1 = Some (Some ["A"; "B"; "C"; "N3"; "N4"]) ∧
  ∃ d', data run.1 = Some d' ∧
        length (da_bands d') = 5%nat ∧
        da_bands d' !! 4%nat = Some (5, [Num 4; Num 7]).
Proof.
  intros run.
  assert (run = (run.1, Ok tt)) as Hrun by (vm_compute; reflexivity).
  split; [by rewrite Hrun|].
  split; [vm_compute; reflexivity|].
  destruct (addindices_appends_in_order _ _ _ _ Hrun)
    as (d & bs & d' & bs' & Hd & Hbs & Hd' & Hbs' & _ & Hlen & _ & _ & Hcalls).
  destruct (Hcalls 1%nat (Samples.counting_index "N3") eq_refl)
    as (band & l & px & name & Hcall & Hband & _ & Hpos).
  exists d'. split; [exact Hd'|].
  vm_compute in Hd, Hbs, Hbs'. simplify_eq.
  split; [exact Hlen|].
  vm_compute in Hd'. simplify_eq.
  vm_compute in Hcall. simplify_eq.
  simpl in Hband. simplify_eq. exact Hpos.
Defined.

(** ** Dropping bands *)

Lemma index_elem l x :
  x ∈ l → index l x = Ok (position l x) ∧ l !! position l x = Some x.
Proof.
  intros Hin. unfold index, position.
  destruct (list_find (λ y, y = x) l) as [[i y]|] eqn:Hfind.
  - apply list_find_Some in Hfind as (Hi & -> & _). done.
  - apply list_find_None in Hfind.
    by apply (proj1 (Forall_forall _ _) Hfind) in Hin.
Qed.

Lemma position_inj l x y :
  x ∈ l → y ∈ l → position l x = position l y → x = y.
Proof.
  intros Hx Hy Heq.
  destruct (index_elem l x Hx) as [_ Hlx].
  destruct (index_elem l y Hy) as [_ Hly]. congruence.
Qed.

Lemma forallb_elem (bs ds : list string) :
  forallb (λ x, bool_decide (x ∈ bs)) ds = true → Forall (λ x, x ∈ bs) ds.
Proof.
  induction ds as [|x ds IH]; simpl; [constructor|].
  intros [Hx Hds]%andb_true_iff. constructor; [|auto].
  by apply bool_decide_eq_true in Hx.
Qed.

Lemma drop_labels_run self bs ds :
  bands self = Some (Some bs) → Forall (λ x, x ∈ bs) ds →
  drop_labels ds self = (self, Ok (dropind_of bs ds)).
Proof.
  intros Hbs Hds. induction Hds as [|x ds Hx Hds IH]; [done|].
  simpl. rewrite (bind_Ok _ _ _ _ _ (get_bands_Some _ _ Hbs)).
  destruct (index_elem bs x Hx) as [Hidx _].
  unfold bind at 1, lift. rewrite Hidx.
  unfold bind at 1. by rewrite IH.
Qed.

(** What a completed [dropindices] has done. *)
Lemma dropindices_inv ds self self' d bs :
  data self = Some d → bands self = Some (Some bs) →
  dropindices ds self = (self', Ok tt) →
  Forall (λ x, x ∈ bs) ds ∧
  Forall (λ l, l ∈ (da_bands d).*1) (dropind_of bs ds) ∧
  self' = {| data := Some (with_bands d
                       (filter (λ b : Z * list pixel, b.1 ∉ dropind_of bs ds)
                               (da_bands d)));
             bands := Some (Some (filter (λ band, band ∉ ds) bs));
             nodataval := nodataval self |}.
Proof.
  intros Hd Hbs. unfold dropindices.
  rewrite (bind_Ok _ _ _ _ _ (all_in_bands_run _ _ ds Hbs)).
  destruct (forallb _ ds) eqn:Hall; simpl; [|discriminate].
  apply forallb_elem in Hall.
  rewrite (bind_Ok _ _ _ _ _ (drop_labels_run _ _ _ Hbs Hall)).
  rewrite (bind_Ok _ _ _ _ _ (get_data_Some _ _ Hd)).
  unfold bind at 1, lift, da_drop. case_bool_decide as Hlabels; [|discriminate].
  unfold bind, set_data, get_bands, set_bands. simpl. rewrite Hbs.
  intros [= <-]. done.
Qed.

(** *** Where the labels are still 1, 2, ...

    On a raster whose bands carry the labels 1, ..., N in order, as after
    loading and after [addindices], and whose names are distinct,
    [dropindices] does remove the slice of each name it removes. *)

Lemma zip_filter {A B} (P : A → Prop) (Q : B → Prop)
    `{∀ x, Decision (P x)} `{∀ y, Decision (Q y)} (l : list A) (k : list B) :
  Forall2 (λ x y, P x ↔ Q y) l k →
  zip (filter P l) (filter Q k) = filter (λ p : A * B, P p.1) (zip l k).
Proof.
  induction 1 as [|x y l k Hxy _ IH]; [done|].
  simpl. rewrite !filter_cons. simpl.
  destruct (decide (P x)) as [HP|HP], (decide (Q y)) as [HQ|HQ];
    try tauto; simpl; by rewrite IH.
Qed.

Lemma dropind_of_elem (bs ds : list string) i x :
  NoDup bs → Forall (λ y, y ∈ bs) ds → bs !! i = Some x →
  Z.of_nat (S i) ∈ dropind_of bs ds ↔ x ∈ ds.
Proof.
  intros Hnodup Hds Hi. unfold dropind_of. rewrite list_elem_of_fmap. split.
  - intros (y & Heq & Hy).
    destruct (index_elem bs y) as [_ Hpos].
    { by apply (proj1 (Forall_forall _ _) Hds). }
    replace (position bs y) with i in Hpos by lia. congruence.
  - intros Hx. exists x. split; [|done].
    destruct (index_elem bs x) as [_ Hpos].
    { by apply (proj1 (Forall_forall _ _) Hds). }
    rewrite (NoDup_lookup bs i (position bs x) x Hnodup Hi Hpos). lia.
Qed.

Lemma to_dataarray_labels f :
  (da_bands (to_dataarray f)).*1
  = (λ i, Z.of_nat (S i)) <$> seq 0 (length (pixels f)).
Proof.
  simpl. apply list_eq. intros i.
  rewrite !list_lookup_fmap, list_lookup_imap.
  destruct (pixels f !! i) as [px|] eqn:Hi; simpl.
  - by rewrite lookup_seq_lt by (by apply lookup_lt_Some in Hi).
  - by rewrite lookup_seq_ge by (by apply lookup_ge_None in Hi).
Qed.

Lemma dropindices_contiguous_labels ds self self' d bs :
  data self = Some d → bands self = Some (Some bs) →
  NoDup bs →
  (da_bands d).*1 = (λ i, Z.of_nat (S i)) <$> seq 0 (length bs) →
  dropindices ds self = (self', Ok tt) →
  ∃ d' bs',
    data self' = Some d' ∧ bands self' = Some (Some bs') ∧
    zip bs' (da_bands d')
    = filter (λ p : string * (Z * list pixel), p.1 ∉ ds) (zip bs (da_bands d)).
Proof.
  intros Hd Hbs Hnodup Hlabels Hrun.
  apply (dropindices_inv ds self self' d bs Hd Hbs) in Hrun as (Hds & _ & ->).
  eexists _, _. split; [reflexivity|]. split; [reflexivity|]. simpl.
  refine (zip_filter (λ band, band ∉ ds)
            (λ b : Z * list pixel, b.1 ∉ dropind_of bs ds) bs (da_bands d) _).
  apply Forall2_same_length_lookup_2.
  - apply (f_equal length) in Hlabels.
    by rewrite !length_fmap, length_seq in Hlabels.
  - intros i x b Hx Hb.
    assert (b.1 = Z.of_nat (S i)) as ->.
    { apply (f_equal (λ l, l !! i)) in Hlabels.
      rewrite !list_lookup_fmap, Hb, lookup_seq_lt in Hlabels
        by (by apply lookup_lt_Some in Hx).
      simpl in Hlabels. congruence. }
    by rewrite (dropind_of_elem bs ds i x Hnodup Hds Hx).
Qed.

(** C3: after one [dropindices] the labels of the bands left are no
    longer 1, 2, ..., but [dropindices] still computes the labels to drop
    from positions in [bands].  Dropping A and then C from a raster with
    bands A, B, C removes the band of B: the name left is B, the pixels
    left are those of C. *)
Theorem dropindices_after_drop_takes_wrong_band :
  let r1 := (dropindices ["A"] Samples.rasterABC).1 in
  let r2 := (dropindices ["C"] r1).1 in
  da_bands <$> data Samples.rasterABC
  = Some [(1, [Num 10; Num 11]); (2, [Num 20; Num 21]);
          (3, [Num 30; Num 31])] ∧
  dropindices ["A"] Samples.rasterABC = (r1, Ok tt) ∧
  bands r1 = Some (Some ["B"; "C"]) ∧
  da_bands <$> data r1
  = Some [(2, [Num 20; Num 21]); (3, [Num 30; Num 31])] ∧
  dropindices ["C"] r1 = (r2, Ok tt) ∧
  bands r2 = Some (Some ["B"]) ∧
  da_bands <$> data r2 = Some [(3, [Num 30; Num 31])].
Proof. repeat split; vm_compute; reflexivity. Qed.

(** *** Counting what a filter removes *)

Section counting.
Context {A : Type} `{EqDecision A}.

Lemma length_filter_notin (l xs : list A) :
  NoDup l → Forall (λ x, x ∈ l) xs →
  (length (filter (λ x, x ∉ xs) l) + length (remove_dups xs))%nat = length l.
Proof.
  intros Hl Hxs.
  rewrite <- (Permutation_length (filter_app_complement (λ x, x ∈ xs) l)).
  rewrite length_app, Nat.add_comm. f_equal.
  apply Permutation_length, NoDup_Permutation.
  - exact (NoDup_remove_dups xs).
  - by apply NoDup_filter.
  - intros x. rewrite elem_of_remove_dups, list_elem_of_filter.
    split; [|tauto]. intros Hx. split; [done|].
    by apply (proj1 (Forall_forall _ _) Hxs).
Qed.

Lemma length_remove_dups_fmap {B : Type} `{EqDecision B}
    (g : A → B) (xs : list A) :
  (∀ x y, x ∈ xs → y ∈ xs → g x = g y → x = y) →
  length (remove_dups (g <$> xs)) = length (remove_dups xs).
Proof.
  intros Hinj. rewrite <- (length_fmap g (remove_dups xs)).
  apply Permutation_length, NoDup_Permutation.
  - exact (NoDup_remove_dups (g <$> xs)).
  - apply NoDup_fmap_2_strong; [|exact (NoDup_remove_dups xs)].
    intros x y Hx Hy Heq.
    apply Hinj; [exact (proj1 (elem_of_remove_dups _ _) Hx)
                |exact (proj1 (elem_of_remove_dups _ _) Hy) | exact Heq].
  - intros b. rewrite elem_of_remove_dups, !list_elem_of_fmap.
    by setoid_rewrite elem_of_remove_dups.
Qed.
End counting.

Lemma length_filter_labels (X : list Z) (l : list (Z * list pixel)) :
  length (filter (λ b : Z * list pixel, b.1 ∉ X) l)
  = length (filter (λ z, z ∉ X) l.*1).
Proof.
  induction l as [|b l IH]; [done|].
  rewrite fmap_cons, !filter_cons. simpl.
  destruct (decide (b.1 ∉ X)); simpl; by rewrite IH.
Qed.

(** With distinct names and distinct labels, [dropindices] takes as many
    bands out of [data] as it takes names out of [bands]. *)
Lemma dropindices_same_count (bs ds : list string) (bands : list (Z * list pixel)) :
  NoDup bs → NoDup bands.*1 → length bs = length bands →
  Forall (λ x, x ∈ bs) ds →
  Forall (λ l, l ∈ bands.*1) (dropind_of bs ds) →
  length (filter (λ band, band ∉ ds) bs)
  = length (filter (λ b : Z * list pixel, b.1 ∉ dropind_of bs ds) bands).
Proof.
  intros Hbs Hlabels Hlen Hds Hind.
  pose proof (length_filter_notin bs ds Hbs Hds) as Hn.
  pose proof (length_filter_notin _ _ Hlabels Hind) as Hl.
  rewrite length_fmap in Hl. rewrite length_filter_labels.
  unfold dropind_of in *. rewrite length_remove_dups_fmap in Hl; [lia|].
  intros x y Hx Hy Heq. apply (position_inj bs).
  - by apply (proj1 (Forall_forall _ _) Hds).
  - by apply (proj1 (Forall_forall _ _) Hds).
  - lia.
Qed.

(** ** The band invariant *)

Lemma readraster_run fs f file bs self :
  fs !! f = Some (Tif file) →
  readraster fs f bs self
  = ({| data := Some (to_dataarray file); bands := Some bs;
        nodataval := Some (nodatavals file) |}, Ok tt).
Proof. intros Hf. unfold readraster, bind, lift, open_rasterio. by rewrite Hf. Qed.

Lemma new_Raster_run fs f file bs :
  fs !! f = Some (Tif file) →
  new_Raster fs (Some f) (Some bs)
  = ({| data := Some (to_dataarray file); bands := Some (Some bs);
        nodataval := Some (nodatavals file) |}, Ok tt).
Proof.
  intros Hf. rewrite eager_two_phase_agree.
  - by apply readraster_run.
  - unfold isfile. apply bool_decide_eq_true. by rewrite Hf.
Qed.

Lemma band_invariant_inv self :
  band_invariant self →
  ∃ d bs, data self = Some d ∧ bands self = Some (Some bs) ∧
          length bs = length (da_bands d).
Proof.
  unfold band_invariant.
  destruct (data self) as [d|], (bands self) as [[bs|]|]; try done. eauto.
Qed.

(** C4, as claimed, fails: neither the constructor nor [readraster]
    compares the band list with the file.  One name for a file of three
    bands is accepted, and the invariant does not hold afterwards. *)
Lemma band_invariant_not_established :
  length (pixels Samples.tif3) = 3%nat ∧
  ∃ self,
    new_Raster Samples.disk (Some "a.tif") (Some ["A"]) = (self, Ok tt) ∧
    ¬ band_invariant self.
Proof.
  split; [reflexivity|]. eexists. split; [vm_compute; reflexivity|].
  unfold band_invariant. simpl. discriminate.
Qed.

(** C4, amended: after the constructor or [readraster] the invariant holds
    exactly when the band list passed has as many names as the file has
    bands; every [preprocess] and [addindices] that returns preserves it;
    every [dropindices] that returns preserves it on a raster whose band
    names are pairwise distinct and whose band labels are pairwise
    distinct. *)
Theorem band_invariant_preserved :
  (∀ fs f file bs,
     fs !! f = Some (Tif file) →
     ∃ self, new_Raster fs (Some f) (Some bs) = (self, Ok tt) ∧
             (band_invariant self ↔ length bs = length (pixels file))) ∧
  (∀ fs f file bs self0,
     fs !! f = Some (Tif file) →
     ∃ self, readraster fs f (Some bs) self0 = (self, Ok tt) ∧
             (band_invariant self ↔ length bs = length (pixels file))) ∧
  (∀ op b r self self',
     band_invariant self →
     preprocess op b r self = (self', Ok tt) → band_invariant self') ∧
  (∀ indices factor self self',
     band_invariant self →
     addindices indices factor self = (self', Ok tt) → band_invariant self') ∧
  (∀ ds self self' d bs,
     data self = Some d → bands self = Some (Some bs) →
     length bs = length (da_bands d) →
     NoDup bs → NoDup (da_bands d).*1 →
     dropindices ds self = (self', Ok tt) → band_invariant self').
Proof.
  split; [|split; [|split; [|split]]].
  - intros fs f file bs Hf. eexists. split; [by apply new_Raster_run|].
    unfold band_invariant. simpl. by rewrite length_imap.
  - intros fs f file bs self0 Hf. eexists. split; [by apply readraster_run|].
    unfold band_invariant. simpl. by rewrite length_imap.
  - intros op b r self self' Hinv Hrun.
    apply band_invariant_inv in Hinv as (d & bs & Hd & Hbs & Hlen).
    destruct (ops !! op) as [cmp|] eqn:Hop.
    + rewrite (preprocess_run self d op cmp b r Hd Hop) in Hrun.
      injection Hrun as <-. unfold band_invariant. simpl.
      by rewrite Hbs, length_map.
    + unfold preprocess in Hrun.
      rewrite (bind_Ok _ _ _ _ _ (get_data_Some _ _ Hd)), Hop in Hrun.
      discriminate.
  - intros indices factor self self' Hinv Hrun.
    apply band_invariant_inv in Hinv as (d & bs & Hd & Hbs & Hlen).
    apply addindices_inv in Hrun
      as (d0 & bs0 & outs & s & o & Hd0 & Hbs0 & Hlen0 & -> & _).
    simplify_eq. unfold band_invariant. simpl.
    by rewrite !length_app, length_fmap, length_labelled, Hlen.
  - intros ds self self' d bs Hd Hbs Hlen Hnames Hlabels Hrun.
    apply (dropindices_inv ds self self' d bs Hd Hbs) in Hrun
      as (Hds & Hind & ->).
    unfold band_invariant. simpl. by apply dropindices_same_count.
Qed.

Lemma band_invariant_preserved_witness :
  band_invariant Samples.rasterABC ∧
  band_invariant (preprocess "<" (Num 25) (Num 0) Samples.rasterABC).1 ∧
  band_invariant
    (addindices [Samples.counting_index "A"] 7 Samples.rasterABC).1 ∧
  band_invariant (dropindices ["B"; "A"] Samples.rasterABC).1.
Proof.
  destruct band_invariant_preserved as (Hnew & _ & Hpre & Hadd & Hdrop).
  assert (band_invariant Samples.rasterABC) as Hinv.
  { destruct (Hnew Samples.disk "a.tif" Samples.tif3 ["A"; "B"; "C"] eq_refl)
      as (self & Hrun & Hiff).
    unfold Samples.rasterABC. rewrite Hrun. apply Hiff. reflexivity. }
  split; [exact Hinv|]. split; [|split].
  - apply (Hpre "<" (Num 25) (Num 0) Samples.rasterABC _ Hinv).
    vm_compute. reflexivity.
  - apply (Hadd [Samples.counting_index "A"] 7 Samples.rasterABC _ Hinv).
    vm_compute. reflexivity.
  - apply (Hdrop ["B"; "A"] Samples.rasterABC _ Samples.dataABC
             ["A"; "B"; "C"]).
    + reflexivity.
    + reflexivity.
    + reflexivity.
    + compute_done.
    + compute_done.
    + vm_compute. reflexivity.
Defined.

(** ** More on thresholding *)

Lemma da_where_where d c1 o1 c2 o2 :
  da_where (da_where d c1 o1) c2 o2
  = with_bands d
      (map (λ b : Z * list pixel,
              (b.1, map (λ p, let q := if c1 p then p else o1 in
                              if c2 q then q else o2) b.2))
           (da_bands d)).
Proof.
  unfold da_where, with_bands. simpl. f_equal.
  rewrite <- list_fmap_compose. apply list_fmap_ext. intros _ [l px] _.
  simpl. f_equal. by rewrite <- list_fmap_compose.
Qed.

(** Two pixelwise maps that agree on the pixels of [d] give the same
    array. *)
Lemma with_bands_ext d (f g : pixel → pixel) :
  (∀ b p, b ∈ da_bands d → p ∈ b.2 → f p = g p) →
  with_bands d (map (λ b : Z * list pixel, (b.1, map f b.2)) (da_bands d))
  = with_bands d (map (λ b : Z * list pixel, (b.1, map g b.2)) (da_bands d)).
Proof.
  intros Hfg. f_equal. apply list_fmap_ext. intros i [l px] Hi. simpl.
  f_equal. apply list_fmap_ext. intros j p Hj.
  apply (Hfg (l, px) p); by eapply list_elem_of_lookup_2.
Qed.

(** X1: [preprocess] is idempotent whatever the operator: a second call
    with the same arguments returns what the first returned and leaves the
    object as the first left it, for ['<'] as for ['>'], and also when the
    operator is not in the table and both calls raise. *)
Theorem preprocess_idempotent (op : string) (b r : pixel) (self : Raster) :
  preprocess op b r (preprocess op b r self).1 = preprocess op b r self.
Proof.
  destruct (data self) as [d|] eqn:Hd.
  - destruct (ops !! op) as [cmp|] eqn:Hop.
    + rewrite (preprocess_run self d op cmp b r Hd Hop). simpl.
      erewrite preprocess_run; [|reflexivity|exact Hop]. simpl.
      by rewrite da_where_idem.
    + assert (preprocess op b r self = (self, Raise (KeyError op))) as Hrun.
      { unfold preprocess.
        rewrite (bind_Ok _ _ _ _ _ (get_data_Some _ _ Hd)). by rewrite Hop. }
      by rewrite Hrun.
  - assert (preprocess op b r self = (self, Raise (AttributeError "data")))
      as Hrun.
    { unfold preprocess, bind, get_data. by rewrite Hd. }
    by rewrite Hrun.
Qed.

(** X2: clipping from below and from above compose to a clamp, except on
    NaN.  With [lo <= hi], [preprocess('>', lo, lo)] followed by
    [preprocess('<', hi, hi)] turns every pixel that is a number [z] into
    [max(lo, min(z, hi))] and every NaN into [lo]; the two calls in the
    other order do the same to the numbers and turn every NaN into [hi].
    Labels and attributes are kept.  So the two orders give the same
    object when no pixel is NaN, or when [lo = hi]. *)
Theorem preprocess_clamp (self : Raster) (d : DataArray) (lo hi : Z) :
  data self = Some d → lo ≤ hi →
  preprocess "<" (Num hi) (Num hi)
    (preprocess ">" (Num lo) (Num lo) self).1
  = ({| data := Some (with_bands d
                  (map (λ b : Z * list pixel,
                          (b.1, map (λ p, match p with
                                          | Num z => Num (Z.max lo (Z.min z hi))
                                          | NaN => Num lo
                                          end) b.2))
                       (da_bands d)));
        bands := bands self; nodataval := nodataval self |}, Ok tt) ∧
  preprocess ">" (Num lo) (Num lo)
    (preprocess "<" (Num hi) (Num hi) self).1
  = ({| data := Some (with_bands d
                  (map (λ b : Z * list pixel,
                          (b.1, map (λ p, match p with
                                          | Num z => Num (Z.max lo (Z.min z hi))
                                          | NaN => Num hi
                                          end) b.2))
                       (da_bands d)));
        bands := bands self; nodataval := nodataval self |}, Ok tt) ∧
  (lo = hi ∨ Forall (λ b : Z * list pixel, NaN ∉ b.2) (da_bands d) →
   preprocess ">" (Num lo) (Num lo)
     (preprocess "<" (Num hi) (Num hi) self).1
   = preprocess "<" (Num hi) (Num hi)
       (preprocess ">" (Num lo) (Num lo) self).1).
Proof.
  intros Hd Hle.
  assert (∀ p, (let q := if pixel_gt p (Num lo) then p else Num lo in
                if pixel_lt q (Num hi) then q else Num hi)
               = match p with
                 | Num z => Num (Z.max lo (Z.min z hi))
                 | NaN => Num lo
                 end) as Hup.
  { intros [z|]; simpl.
    - rewrite Z.gtb_ltb. destruct (Z.ltb_spec lo z); simpl;
        [destruct (Z.ltb_spec z hi)|destruct (Z.ltb_spec lo hi)];
        f_equal; lia.
    - destruct (Z.ltb_spec lo hi); f_equal; lia. }
  assert (∀ p, (let q := if pixel_lt p (Num hi) then p else Num hi in
                if pixel_gt q (Num lo) then q else Num lo)
               = match p with
                 | Num z => Num (Z.max lo (Z.min z hi))
                 | NaN => Num hi
                 end) as Hdown.
  { intros [z|]; simpl.
    - destruct (Z.ltb_spec z hi); simpl; rewrite Z.gtb_ltb;
        [destruct (Z.ltb_spec lo z)|destruct (Z.ltb_spec lo hi)];
        f_equal; lia.
    - rewrite Z.gtb_ltb. destruct (Z.ltb_spec lo hi); f_equal; lia. }
  eassert (preprocess "<" (Num hi) (Num hi)
             (preprocess ">" (Num lo) (Num lo) self).1 = _) as HA.
  { rewrite (preprocess_run self d ">" pixel_gt _ _ Hd ops_gt). simpl.
    erewrite preprocess_run; [|reflexivity|apply ops_lt]. simpl.
    rewrite da_where_where.
    rewrite (with_bands_ext d _ _ (λ b p _ _, Hup p)). reflexivity. }
  eassert (preprocess ">" (Num lo) (Num lo)
             (preprocess "<" (Num hi) (Num hi) self).1 = _) as HB.
  { rewrite (preprocess_run self d "<" pixel_lt _ _ Hd ops_lt). simpl.
    erewrite preprocess_run; [|reflexivity|apply ops_gt]. simpl.
    rewrite da_where_where.
    rewrite (with_bands_ext d _ _ (λ b p _ _, Hdown p)). reflexivity. }
  split; [exact HA|]. split; [exact HB|].
  intros Hsame. rewrite HA, HB. do 3 f_equal.
  apply with_bands_ext. intros b [z|] Hb Hp; [done|].
  destruct Hsame as [->|Hnum]; [done|].
  by apply (proj1 (Forall_forall _ _) Hnum) in Hb.
Qed.

Lemma preprocess_clamp_witness :
  (da_bands <$> data MoreSamples.rasterS)
  = Some [(1, [Num (-5); Num 11]); (2, [Num 20; Num 12000]);
          (3, [Num 30; Num 31])] ∧
  (da_bands <$> data
     (preprocess "<" (Num 10000) (Num 10000)
        (preprocess ">" (Num 0) (Num 0) MoreSamples.rasterS).1).1)
  = Some [(1, [Num 0; Num 11]); (2, [Num 20; Num 10000]);
          (3, [Num 30; Num 31])] ∧
  preprocess ">" (Num 0) (Num 0)
    (preprocess "<" (Num 10000) (Num 10000) MoreSamples.rasterS).1
  = preprocess "<" (Num 10000) (Num 10000)
      (preprocess ">" (Num 0) (Num 0) MoreSamples.rasterS).1 ∧
  (da_bands <$> data MoreSamples.rasterN) = Some [(1, [NaN; Num 12000])] ∧
  (da_bands <$> data
     (preprocess "<" (Num 10000) (Num 10000)
        (preprocess ">" (Num 0) (Num 0) MoreSamples.rasterN).1).1)
  = Some [(1, [Num 0; Num 10000])] ∧
  (da_bands <$> data
     (preprocess ">" (Num 0) (Num 0)
        (preprocess "<" (Num 10000) (Num 10000) MoreSamples.rasterN).1).1)
  = Some [(1, [Num 10000; Num 10000])].
Proof.
  split; [reflexivity|].
  destruct (preprocess_clamp MoreSamples.rasterS
              (to_dataarray MoreSamples.tif_scaled) 0 10000)
    as (HA & _ & Hsame); [reflexivity | lia |].
  split; [rewrite HA; reflexivity|].
  split; [apply Hsame; right; repeat constructor; compute_done|].
  split; [reflexivity|].
  destruct (preprocess_clamp MoreSamples.rasterN
              (to_dataarray MoreSamples.tif_nan) 0 10000)
    as (HA' & HB' & _); [reflexivity | lia |].
  split; [rewrite HA'; reflexivity | rewrite HB'; reflexivity].
Defined.

(** ** The script *)

Lemma foldr_min_elem p ps : foldr Z.min p ps ∈ p :: ps.
Proof.
  induction ps as [|x ps IH]; simpl; [apply list_elem_of_here|].
  destruct (Z.min_spec x (foldr Z.min p ps)) as [[_ ->]|[_ ->]].
  - apply list_elem_of_further, list_elem_of_here.
  - apply elem_of_cons in IH as [->|IH]; [apply list_elem_of_here|].
    by do 2 apply list_elem_of_further.
Qed.

Lemma foldr_min_le p ps x : x ∈ p :: ps → foldr Z.min p ps ≤ x.
Proof.
  induction ps as [|y ps IH]; simpl.
  - intros ->%list_elem_of_singleton. lia.
  - rewrite !elem_of_cons. intros [->|[->|Hx]].
    + etrans; [apply Z.le_min_r|]. apply IH, list_elem_of_here.
    + apply Z.le_min_l.
    + etrans; [apply Z.le_min_r|]. by apply IH, list_elem_of_further.
Qed.

Lemma foldr_max_elem p ps : foldr Z.max p ps ∈ p :: ps.
Proof.
  induction ps as [|x ps IH]; simpl; [apply list_elem_of_here|].
  destruct (Z.max_spec x (foldr Z.max p ps)) as [[_ ->]|[_ ->]].
  - apply elem_of_cons in IH as [->|IH]; [apply list_elem_of_here|].
    by do 2 apply list_elem_of_further.
  - apply list_elem_of_further, list_elem_of_here.
Qed.

Lemma foldr_max_ge p ps x : x ∈ p :: ps → x ≤ foldr Z.max p ps.
Proof.
  induction ps as [|y ps IH]; simpl.
  - intros ->%list_elem_of_singleton. lia.
  - rewrite !elem_of_cons. intros [->|[->|Hx]].
    + etrans; [|apply Z.le_max_r]. apply IH, list_elem_of_here.
    + apply Z.le_max_l.
    + etrans; [|apply Z.le_max_r]. by apply IH, list_elem_of_further.
Qed.

Lemma elem_of_numbers z l : z ∈ numbers l ↔ Num z ∈ l.
Proof.
  unfold numbers. rewrite list_elem_of_omap. split.
  - by intros ([y|] & Hin & [= ->]).
  - intros Hin. by exists (Num z).
Qed.

(** The minimum is the number [b] exactly when [b] is a pixel and no pixel
    that is a number is smaller; likewise for the maximum. *)
Lemma da_min_Ok d b :
  da_min d = Ok (Num b)
  ↔ Num b ∈ all_pixels d ∧ ∀ z, Num z ∈ all_pixels d → b ≤ z.
Proof.
  unfold da_min. setoid_rewrite <- elem_of_numbers.
  destruct (all_pixels d) as [|p ps] eqn:Hall.
  - split; [discriminate|]. by intros [?%not_elem_of_nil _].
  - destruct (numbers (p :: ps)) as [|z zs].
    + split; [discriminate|]. by intros [?%not_elem_of_nil _].
    + split.
      * intros [= <-]. split; [apply foldr_min_elem|apply foldr_min_le].
      * intros [Hin Hle]. do 2 f_equal. apply Z.le_antisymm.
        -- by apply foldr_min_le.
        -- apply Hle, foldr_min_elem.
Qed.

Lemma da_max_Ok d b :
  da_max d = Ok (Num b)
  ↔ Num b ∈ all_pixels d ∧ ∀ z, Num z ∈ all_pixels d → z ≤ b.
Proof.
  unfold da_max. setoid_rewrite <- elem_of_numbers.
  destruct (all_pixels d) as [|p ps] eqn:Hall.
  - split; [discriminate|]. by intros [?%not_elem_of_nil _].
  - destruct (numbers (p :: ps)) as [|z zs].
    + split; [discriminate|]. by intros [?%not_elem_of_nil _].
    + split.
      * intros [= <-]. split; [apply foldr_max_elem|apply foldr_max_ge].
      * intros [Hin Hle]. do 2 f_equal. apply Z.le_antisymm.
        -- apply Hle, foldr_max_elem.
        -- by apply foldr_max_ge.
Qed.

Lemma all_pixels_where d cond other :
  all_pixels (da_where d cond other)
  = (λ p, if cond p then p else other) <$> all_pixels d.
Proof.
  unfold all_pixels. simpl.
  induction (da_bands d) as [|[l px] bs IH]; [done|].
  simpl. rewrite fmap_app. f_equal. exact IH.
Qed.

Lemma all_pixels_to_dataarray f :
  all_pixels (to_dataarray f) = mjoin (pixels f).
Proof.
  unfold all_pixels. simpl. f_equal. apply list_eq. intros i.
  rewrite list_lookup_fmap, list_lookup_imap.
  by destruct (pixels f !! i).
Qed.

Lemma main_runs_test_4 fs filename fdi si ndwi :
  main fs filename fdi si ndwi = (unit_test_4 fs filename empty_raster).2.
Proof. reflexivity. Qed.

(** After clipping from below at [b] the minimum is [b] exactly when some
    pixel was not above [b]: a number that is at most [b], or NaN. *)
Lemma min_after_clip d b :
  da_min (da_where d (λ p, pixel_gt p (Num b)) (Num b)) = Ok (Num b)
  ↔ ∃ p, p ∈ all_pixels d ∧ (p = NaN ∨ ∃ z, p = Num z ∧ z ≤ b).
Proof.
  rewrite da_min_Ok, all_pixels_where. split.
  - intros [(p & Hp & Hin)%list_elem_of_fmap _]. exists p. split; [done|].
    destruct p as [z|]; [right|by left]. exists z. split; [done|].
    simpl in Hp. rewrite Z.gtb_ltb in Hp.
    destruct (Z.ltb_spec b z); simplify_eq; lia.
  - intros (p & Hin & Hp). split.
    + apply list_elem_of_fmap. exists p. split; [|done].
      destruct Hp as [->|(z & -> & Hz)]; [done|]. simpl.
      rewrite Z.gtb_ltb. destruct (Z.ltb_spec b z); [f_equal; lia|done].
    + intros x ([q|] & Hq & _)%list_elem_of_fmap; simpl in Hq;
        [|simplify_eq; lia].
      rewrite Z.gtb_ltb in Hq. destruct (Z.ltb_spec b q); simplify_eq; lia.
Qed.

(** After clipping from above at [b] the maximum is [b] exactly when some
    pixel was a number that is at least [b]. *)
Lemma max_after_clip d b :
  NaN ∉ all_pixels d →
  da_max (da_where d (λ p, pixel_lt p (Num b)) (Num b)) = Ok (Num b)
  ↔ ∃ z, Num z ∈ all_pixels d ∧ b ≤ z.
Proof.
  intros Hnan. rewrite da_max_Ok, all_pixels_where. split.
  - intros [([z|] & Hp & Hin)%list_elem_of_fmap _]; [|done].
    exists z. split; [done|]. simpl in Hp.
    destruct (Z.ltb_spec z b); simplify_eq; lia.
  - intros (z & Hin & Hle). split.
    + apply list_elem_of_fmap. exists (Num z). split; [|done]. simpl.
      destruct (Z.ltb_spec z b); [f_equal; lia|done].
    + intros x ([q|] & Hq & Hqin)%list_elem_of_fmap; [|done].
      simpl in Hq. destruct (Z.ltb_spec q b); simplify_eq; lia.
Qed.

(** What unit test 4 comes to on a file that opens. *)
Lemma unit_test_4_passes fs filename file :
  fs !! filename = Some (Tif file) →
  let d1 := da_where (to_dataarray file) (λ p, pixel_gt p (Num 0)) (Num 0) in
  let d2 := da_where d1 (λ p, pixel_lt p (Num 10000)) (Num 10000) in
  (unit_test_4 fs filename empty_raster).2 = Ok tt
  ↔ da_min d1 = Ok (Num 0) ∧ da_max d2 = Ok (Num 10000).
Proof.
  intros Hf d1 d2. unfold unit_test_4.
  pose proof (new_Raster_run fs filename file test_bands Hf) as Hinit.
  unfold new_Raster in Hinit. rewrite (bind_Ok _ _ _ _ _ Hinit).
  erewrite bind_Ok;
    [|by apply (preprocess_run _ (to_dataarray file) ">" pixel_gt);
         [reflexivity|apply ops_gt]].
  erewrite bind_Ok; [|by apply get_data_Some].
  fold d1. unfold bind at 1, lift.
  destruct (da_min d1) as [m|e]; [|simpl; split; [discriminate|by intros [? _]]].
  unfold bind at 1, assert.
  assert (pixel_eqb m (Num 0) = true ↔ m = Num 0) as Hm0.
  { destruct m as [z|]; simpl; [|split; discriminate].
    rewrite Z.eqb_eq. split; [by intros ->|by intros [= ->]]. }
  destruct (pixel_eqb m (Num 0)); simpl;
    [apply proj1 in Hm0; rewrite (Hm0 eq_refl)
    |split; [discriminate|intros [[= ->] _]; apply proj2 in Hm0;
                          by specialize (Hm0 eq_refl)]].
  erewrite bind_Ok; [|by apply (preprocess_run _ d1 "<" pixel_lt);
                       [reflexivity|apply ops_lt]].
  erewrite bind_Ok; [|by apply get_data_Some].
  fold d2. unfold bind at 1, lift.
  destruct (da_max d2) as [m'|e]; [|simpl; split; [discriminate|by intros [_ ?]]].
  unfold ret, raise.
  assert (pixel_eqb m' (Num 10000) = true ↔ m' = Num 10000) as Hm1.
  { destruct m' as [z|]; simpl; [|split; discriminate].
    rewrite Z.eqb_eq. split; [by intros ->|by intros [= ->]]. }
  destruct (pixel_eqb m' (Num 10000)); simpl.
  - apply proj1 in Hm1. by rewrite (Hm1 eq_refl).
  - split; [discriminate|]. intros [_ [= ->]]. apply proj2 in Hm1.
    by specialize (Hm1 eq_refl).
Qed.

(** X3: the script at the end of the file runs unit test 4 only.  Called
    with the path of a raster that opens, it passes exactly when the
    raster has a pixel that is not above 0, that is a number that is at
    most 0 or a NaN, which the first clipping replaces by 0, and a pixel
    that is a number and at least 10000: the two assertions compare the
    minimum with 0 and the maximum with 10000 after clipping, which
    clipping alone does not guarantee. *)
Theorem main_passes_iff
    (fs : gmap string FsEntry) (filename : string) (file : RasterFile)
    (fdi si ndwi : index_function) :
  fs !! filename = Some (Tif file) →
  main fs filename fdi si ndwi = Ok tt
  ↔ (∃ p, p ∈ mjoin (pixels file) ∧ (p = NaN ∨ ∃ z, p = Num z ∧ z ≤ 0)) ∧
    (∃ z, Num z ∈ mjoin (pixels file) ∧ 10000 ≤ z).
Proof.
  intros Hf. rewrite main_runs_test_4, (unit_test_4_passes fs filename file Hf).
  rewrite min_after_clip, all_pixels_to_dataarray.
  apply and_iff_compat_l.
  rewrite max_after_clip.
  - rewrite all_pixels_where, all_pixels_to_dataarray. split.
    + intros (z & ([q|] & Hq & Hin)%list_elem_of_fmap & Hz); simpl in Hq.
      * rewrite Z.gtb_ltb in Hq. destruct (Z.ltb_spec 0 q); simplify_eq; [|lia].
        by exists q.
      * simplify_eq. lia.
    + intros (z & Hin & Hz). exists z. split; [|done].
      apply list_elem_of_fmap. exists (Num z). split; [|done]. simpl.
      rewrite Z.gtb_ltb. destruct (Z.ltb_spec 0 z); [done|lia].
  - rewrite all_pixels_where.
    intros ([q|] & Hq & _)%list_elem_of_fmap; simpl in Hq; [|done].
    by destruct (q >? 0).
Qed.

Lemma main_passes_iff_witness :
  main MoreSamples.disk "s.tif" MoreSamples.failing_index
    MoreSamples.failing_index MoreSamples.failing_index = Ok tt ∧
  main MoreSamples.disk_nan "n.tif" MoreSamples.failing_index
    MoreSamples.failing_index MoreSamples.failing_index = Ok tt ∧
  main MoreSamples.disk "a.tif" MoreSamples.failing_index
    MoreSamples.failing_index MoreSamples.failing_index
  = Raise (AssertionError "Minimum should be 0.").
Proof.
  split; [|split; [|vm_compute; reflexivity]].
  - apply (main_passes_iff MoreSamples.disk "s.tif" MoreSamples.tif_scaled);
      [reflexivity|].
    split; [exists (Num (-5)); split; [compute_done|right; exists (-5); split; [reflexivity|lia]]
           |exists 12000; split; [compute_done | lia]].
  - apply (main_passes_iff MoreSamples.disk_nan "n.tif" MoreSamples.tif_nan);
      [reflexivity|].
    split; [exists NaN; split; [compute_done|by left]
           |exists 12000; split; [compute_done | lia]].
Defined.

(** ** More on adding derived bands *)

Lemma addindices_loop_needs_data indices factor n self self' n' :
  data self = None →
  addindices_loop indices factor n self = (self', Ok n') →
  indices = [] ∧ self' = self.
Proof.
  intros Hd. destruct indices as [|f rest]; simpl.
  - by intros [= <- _].
  - unfold bind at 1, get_data. by rewrite Hd.
Qed.

(** A completed [addindices], with the attributes it started from. *)
Lemma addindices_inv_attrs indices factor self self' :
  addindices indices factor self = (self', Ok tt) →
  ∃ d bs outs s ss o os,
    data self = Some d ∧ bands self = Some (Some bs) ∧
    attrs_scales d = s :: ss ∧ attrs_offsets d = o :: os ∧
    length outs = length indices ∧
    self' = {| data := Some
                 (with_offsets
                    (with_scales
                       (with_bands d (da_bands d ++ labelled (length bs) outs)%list)
                       (replicate (length bs + length indices) s))
                    (replicate (length bs + length indices) o));
               bands := Some (Some (bs ++ outs.*2)%list);
               nodataval := nodataval self |}.
Proof.
  unfold addindices. intros Hrun.
  apply bind_inv_Ok in Hrun as (s1 & bs & Hbs & Hrun).
  apply get_bands_inv in Hbs as [-> Hbs].
  apply bind_inv_Ok in Hrun as (s2 & n' & Hloop & Hrun).
  destruct (data self) as [d|] eqn:Hd.
  - destruct self as [sd sb sn]. simpl in Hd, Hbs. subst sd sb.
    apply addindices_loop_inv in Hloop as (outs & Hlen & -> & -> & _).
    unfold bind, lift, first, get_data, set_data in Hrun. simpl in Hrun.
    destruct (attrs_scales d) as [|s ss] eqn:Hs; [discriminate|].
    simpl in Hrun.
    destruct (attrs_offsets d) as [|o os] eqn:Ho; [discriminate|].
    injection Hrun as <-.
    by exists d, bs, outs, s, ss, o, os.
  - apply (addindices_loop_needs_data _ _ _ _ _ _ Hd) in Hloop as [_ ->].
    unfold bind at 1, get_data in Hrun. by rewrite Hd in Hrun.
Qed.

(** X4: a completed [addindices] leaves in [scales] and in [offsets]
    [len(bands) + K] copies of their first entry, [len(bands)] being the
    number of names before the call and K the number of index functions;
    the values the other bands had are gone.  This is so for K = 0 too:
    [addindices([])] adds nothing and still rewrites both attributes.  The
    no-data values are not touched. *)
Theorem addindices_flattens_scales
    (indices : list index_function) (factor : Z) (self self' : Raster) :
  addindices indices factor self = (self', Ok tt) →
  ∃ d d' bs s o,
    data self = Some d ∧ bands self = Some (Some bs) ∧
    data self' = Some d' ∧
    head (attrs_scales d) = Some s ∧ head (attrs_offsets d) = Some o ∧
    attrs_scales d' = replicate (length bs + length indices) s ∧
    attrs_offsets d' = replicate (length bs + length indices) o ∧
    attrs_nodatavals d' = attrs_nodatavals d ∧
    nodataval self' = nodataval self.
Proof.
  intros Hrun.
  apply addindices_inv_attrs in Hrun
    as (d & bs & outs & s & ss & o & os & Hd & Hbs & Hs & Ho & _ & ->).
  eexists d, _, bs, s, o. simpl. rewrite Hs, Ho. by repeat split.
Qed.

Lemma addindices_flattens_scales_witness :
  let run := addindices [] 1 MoreSamples.rasterS in
  (attrs_scales <$> data MoreSamples.rasterS) = Some [2; 3; 4] ∧
  (attrs_offsets <$> data MoreSamples.rasterS) = Some [5; 6; 7] ∧
  run.2 = Ok tt ∧
  (attrs_scales <$> data run.1) = Some [2; 2; 2] ∧
  (attrs_offsets <$> data run.1) = Some [5; 5; 5].
Proof.
  intros run.
  assert (run = (run.1, Ok tt)) as Hrun by (vm_compute; reflexivity).
  split; [reflexivity|]. split; [reflexivity|]. split; [by rewrite Hrun|].
  destruct (addindices_flattens_scales _ _ _ _ Hrun)
    as (d & d' & bs & s & o & Hd & Hbs & Hd' & Hs & Ho & Hs' & Ho' & _).
  vm_compute in Hd, Hbs. simplify_eq. vm_compute in Hs, Ho. simplify_eq.
  rewrite Hd'. simpl. by rewrite Hs', Ho'.
Defined.




(** ** Labels that follow the positions *)

Lemma labelled_labels n outs :
  (labelled n outs).*1 = (λ i, Z.of_nat (S i)) <$> seq n (length outs).
Proof.
  revert n. induction outs as [|o outs IH]; intros n; [done|].
  simpl. by rewrite IH.
Qed.

Lemma contiguous_labels_inv self :
  contiguous_labels self →
  ∃ d bs, data self = Some d ∧ bands self = Some (Some bs) ∧
          (da_bands d).*1 = (λ i, Z.of_nat (S i)) <$> seq 0 (length bs).
Proof.
  unfold contiguous_labels.
  destruct (data self) as [d|], (bands self) as [[bs|]|]; try done. eauto.
Qed.

(** X6: the labels of [data] stay 1, ..., [len(bands)] as long as nothing
    is dropped.  They are so after the constructor or [readraster] given
    as many names as the file has bands, and every [preprocess] and every
    [addindices] that returns keeps them so; a raster in that state has as
    many names as bands. *)
Theorem contiguous_labels_kept :
  (∀ fs f file bs,
     fs !! f = Some (Tif file) → length bs = length (pixels file) →
     contiguous_labels (new_Raster fs (Some f) (Some bs)).1) ∧
  (∀ fs f file bs self0,
     fs !! f = Some (Tif file) → length bs = length (pixels file) →
     contiguous_labels (readraster fs f (Some bs) self0).1) ∧
  (∀ op b r self self',
     contiguous_labels self →
     preprocess op b r self = (self', Ok tt) → contiguous_labels self') ∧
  (∀ indices factor self self',
     contiguous_labels self →
     addindices indices factor self = (self', Ok tt) →
     contiguous_labels self') ∧
  (∀ self, contiguous_labels self → band_invariant self).
Proof.
  split; [|split; [|split; [|split]]].
  - intros fs f file bs Hf Hlen. rewrite (new_Raster_run fs f file bs Hf).
    unfold contiguous_labels. cbn [fst data bands].
    by rewrite to_dataarray_labels, Hlen.
  - intros fs f file bs self0 Hf Hlen.
    rewrite (readraster_run fs f file (Some bs) self0 Hf).
    unfold contiguous_labels. cbn [fst data bands].
    by rewrite to_dataarray_labels, Hlen.
  - intros op b r self self' Hc Hrun.
    apply contiguous_labels_inv in Hc as (d & bs & Hd & Hbs & Hl).
    destruct (ops !! op) as [cmp|] eqn:Hop.
    + rewrite (preprocess_run self d op cmp b r Hd Hop) in Hrun.
      injection Hrun as <-. unfold contiguous_labels. simpl. rewrite Hbs.
      rewrite <- Hl, <- list_fmap_compose. by apply list_fmap_ext.
    + unfold preprocess in Hrun.
      rewrite (bind_Ok _ _ _ _ _ (get_data_Some _ _ Hd)), Hop in Hrun.
      discriminate.
  - intros indices factor self self' Hc Hrun.
    apply contiguous_labels_inv in Hc as (d & bs & Hd & Hbs & Hl).
    apply addindices_inv in Hrun
      as (d0 & bs0 & outs & s & o & Hd0 & Hbs0 & Hlen0 & -> & _).
    simplify_eq. unfold contiguous_labels. simpl.
    rewrite fmap_app, Hl, labelled_labels, length_app, length_fmap.
    by rewrite seq_app, fmap_app.
  - intros self Hc.
    apply contiguous_labels_inv in Hc as (d & bs & Hd & Hbs & Hl).
    unfold band_invariant. rewrite Hd, Hbs.
    apply (f_equal length) in Hl.
    by rewrite !length_fmap, length_seq in Hl.
Qed.

Lemma contiguous_labels_kept_witness :
  contiguous_labels Samples.rasterABC ∧
  contiguous_labels
    (addindices [Samples.counting_index "A"] 7
       (preprocess ">" (Num 10) (Num 0) Samples.rasterABC).1).1.
Proof.
  destruct contiguous_labels_kept as (Hnew & _ & Hpre & Hadd & _).
  assert (contiguous_labels Samples.rasterABC) as Hc.
  { apply (Hnew Samples.disk "a.tif" Samples.tif3 ["A"; "B"; "C"]);
      reflexivity. }
  split; [exact Hc|].
  apply (Hadd [Samples.counting_index "A"] 7
           (preprocess ">" (Num 10) (Num 0) Samples.rasterABC).1).
  - apply (Hpre ">" (Num 10) (Num 0) Samples.rasterABC _ Hc). vm_compute. reflexivity.
  - vm_compute. reflexivity.
Defined.

(** ** More on dropping bands *)

Lemma filter_all {A} (P : A → Prop) `{∀ x, Decision (P x)} (l : list A) :
  Forall P l → filter P l = l.
Proof.
  induction 1 as [|x l Hx _ IH]; [done|].
  by rewrite filter_cons_True, IH.
Qed.

Lemma filter_none {A} (P : A → Prop) `{∀ x, Decision (P x)} (l : list A) :
  Forall (λ x, ¬ P x) l → filter P l = [].
Proof.
  induction 1 as [|x l Hx _ IH]; [done|].
  by rewrite filter_cons_False, IH.
Qed.

(** [dropindices] on a raster that has [data] and a band list, in full. *)
Lemma dropindices_total ds self d bs :
  data self = Some d → bands self = Some (Some bs) →
  dropindices ds self
  = if forallb (λ x, bool_decide (x ∈ bs)) ds
    then if bool_decide (Forall (λ l, l ∈ (da_bands d).*1) (dropind_of bs ds))
         then ({| data := Some (with_bands d
                      (filter (λ b : Z * list pixel, b.1 ∉ dropind_of bs ds)
                              (da_bands d)));
                  bands := Some (Some (filter (λ band, band ∉ ds) bs));
                  nodataval := nodataval self |}, Ok tt)
         else (self, Raise (KeyError "labels not found in axis"))
    else (self, Raise (AssertionError "Specified band not in raster.")).
Proof.
  intros Hd Hbs. unfold dropindices.
  rewrite (bind_Ok _ _ _ _ _ (all_in_bands_run _ _ ds Hbs)).
  destruct (forallb _ ds) eqn:Hall; simpl; [|done].
  apply forallb_elem in Hall.
  rewrite (bind_Ok _ _ _ _ _ (drop_labels_run _ _ _ Hbs Hall)).
  rewrite (bind_Ok _ _ _ _ _ (get_data_Some _ _ Hd)).
  unfold bind at 1, lift, da_drop. case_bool_decide as Hlabels; [|done].
  unfold bind, set_data, get_bands, set_bands. simpl. by rewrite Hbs.
Qed.

Lemma forallb_elem_2 (bs ds : list string) :
  Forall (λ x, x ∈ bs) ds → forallb (λ x, bool_decide (x ∈ bs)) ds = true.
Proof.
  induction 1 as [|x ds Hx _ IH]; [done|].
  simpl. by rewrite bool_decide_eq_true_2, IH.
Qed.

Lemma position_lt l x : x ∈ l → (position l x < length l)%nat.
Proof.
  intros Hx. destruct (index_elem l x Hx) as [_ Hpos].
  by apply lookup_lt_Some in Hpos.
Qed.

(** With labels 1, ..., N every label [dropindices] computes is there. *)
Lemma dropind_of_found (bs ds : list string) (labels : list Z) :
  labels = (λ i, Z.of_nat (S i)) <$> seq 0 (length bs) →
  Forall (λ x, x ∈ bs) ds →
  Forall (λ l, l ∈ labels) (dropind_of bs ds).
Proof.
  intros -> Hds. unfold dropind_of. apply Forall_fmap.
  eapply Forall_impl; [exact Hds|]. intros x Hx. simpl.
  apply list_elem_of_fmap. exists (position bs x). split; [lia|].
  apply elem_of_seq. pose proof (position_lt bs x Hx). lia.
Qed.

(** X7: on a raster whose labels are 1, ..., [len(bands)] and whose names
    are distinct, [dropindices] with names that are all bands of the
    raster always returns, and removes each of these names together with
    its own slice: the pairs of a name and its band that are left are the
    original pairs whose name was not given, in their order.  The no-data
    values are not touched. *)
Theorem dropindices_removes_named_slices
    (ds : list string) (self : Raster) (d : DataArray) (bs : list string) :
  data self = Some d → bands self = Some (Some bs) →
  contiguous_labels self → NoDup bs →
  Forall (λ x, x ∈ bs) ds →
  ∃ self' d' bs',
    dropindices ds self = (self', Ok tt) ∧
    data self' = Some d' ∧ bands self' = Some (Some bs') ∧
    nodataval self' = nodataval self ∧
    zip bs' (da_bands d')
    = filter (λ p : string * (Z * list pixel), p.1 ∉ ds) (zip bs (da_bands d)).
Proof.
  intros Hd Hbs Hc Hnodup Hds.
  assert ((da_bands d).*1 = (λ i, Z.of_nat (S i)) <$> seq 0 (length bs)) as Hl.
  { unfold contiguous_labels in Hc. by rewrite Hd, Hbs in Hc. }
  pose proof (dropindices_total ds self d bs Hd Hbs) as Hrun.
  rewrite (forallb_elem_2 bs ds Hds) in Hrun.
  rewrite bool_decide_eq_true_2 in Hrun by by apply dropind_of_found.
  destruct (dropindices_contiguous_labels ds self _ d bs Hd Hbs Hnodup Hl Hrun)
    as (d' & bs' & Hd' & Hbs' & Hzip).
  eexists _, d', bs'. split; [exact Hrun|]. by repeat split.
Qed.

Lemma dropindices_removes_named_slices_witness :
  ∃ self' d',
    dropindices ["C"; "A"] Samples.rasterABC = (self', Ok tt) ∧
    data self' = Some d' ∧
    zip ["B"] (da_bands d') = [("B", (2, [Num 20; Num 21]))].
Proof.
  destruct (dropindices_removes_named_slices ["C"; "A"] Samples.rasterABC
              Samples.dataABC ["A"; "B"; "C"])
    as (self' & d' & bs' & Hrun & Hd' & Hbs' & _ & Hzip);
    [reflexivity | reflexivity | reflexivity | compute_done | compute_done |].
  exists self', d'. split; [exact Hrun|]. split; [exact Hd'|].
  assert (bs' = ["B"]) as ->.
  { assert (bands (dropindices ["C"; "A"] Samples.rasterABC).1
            = Some (Some ["B"])) as Hb by (vm_compute; reflexivity).
    rewrite Hrun in Hb. simpl in Hb. congruence. }
  rewrite Hzip. vm_compute. reflexivity.
Defined.

Lemma position_app_new (l : list string) x :
  x ∉ l → position (l ++ [x])%list x = length l.
Proof.
  intros Hx.
  assert (x ∈ (l ++ [x])%list) as Hin by (apply elem_of_app; right; by left).
  destruct (index_elem _ x Hin) as [_ Hpos].
  pose proof (position_lt _ x Hin) as Hlt. rewrite length_app in Hlt.
  destruct (decide (position (l ++ [x])%list x < length l)%nat) as [Hl|Hl].
  - rewrite lookup_app_l in Hpos by done.
    by apply list_elem_of_lookup_2 in Hpos.
  - simpl in Hlt. lia.
Qed.

(** A call of [addindices] with one index function that returns one band. *)
Lemma addindices_one_run f factor self d bs band name l px s ss o os :
  data self = Some d → bands self = Some (Some bs) →
  attrs_scales d = s :: ss → attrs_offsets d = o :: os →
  f d bs factor = Ok (band, name) → da_bands band = [(l, px)] →
  addindices [f] factor self
  = ({| data := Some
          (with_offsets
             (with_scales
                (with_bands d
                   (da_bands d ++ [(Z.of_nat (S (length bs)), px)])%list)
                (replicate (S (length bs)) s))
             (replicate (S (length bs)) o));
        bands := Some (Some (bs ++ [name])%list);
        nodataval := nodataval self |}, Ok tt).
Proof.
  intros Hd Hbs Hs Ho Hf Hband. destruct self as [sd sb sn].
  simpl in Hd, Hbs. subst sd sb.
  unfold addindices, addindices_loop, bind, get_bands, get_data, lift. simpl.
  rewrite Hf. simpl. unfold set_band_coord. rewrite Hband. simpl.
  unfold first. rewrite Hs. simpl. rewrite Ho. done.
Qed.

(** X8: adding one index and dropping it again by name.  On a raster whose
    labels are 1, ..., [len(bands)], when the index function returns one
    band under a name that is not yet a band name, [addindices] followed by
    [dropindices] of that name gives back the band names, the bands with
    their labels and pixels, and the no-data values.  The attributes do
    not come back: [scales] and [offsets] keep the [len(bands) + 1] copies
    of their first entry that [addindices] left. *)
Theorem add_then_drop_restores_bands
    (f : index_function) (factor : Z) (self : Raster) (d band : DataArray)
    (bs : list string) (name : string) (l : Z) (px : list pixel)
    (s o : Z) (ss os : list Z) :
  data self = Some d → bands self = Some (Some bs) →
  contiguous_labels self →
  attrs_scales d = s :: ss → attrs_offsets d = o :: os →
  f d bs factor = Ok (band, name) → da_bands band = [(l, px)] →
  name ∉ bs →
  ∃ self1 self2 d2,
    addindices [f] factor self = (self1, Ok tt) ∧
    dropindices [name] self1 = (self2, Ok tt) ∧
    data self2 = Some d2 ∧
    da_bands d2 = da_bands d ∧
    bands self2 = Some (Some bs) ∧
    nodataval self2 = nodataval self ∧
    attrs_scales d2 = replicate (S (length bs)) s ∧
    attrs_offsets d2 = replicate (S (length bs)) o.
Proof.
  intros Hd Hbs Hc Hs Ho Hf Hband Hname.
  assert ((da_bands d).*1 = (λ i, Z.of_nat (S i)) <$> seq 0 (length bs)) as Hl.
  { unfold contiguous_labels in Hc. by rewrite Hd, Hbs in Hc. }
  eexists _, _, _.
  split; [by apply (addindices_one_run f factor self d bs band name l px
                      s ss o os)|].
  assert (dropind_of (bs ++ [name])%list [name] = [Z.of_nat (S (length bs))])
    as Hind.
  { unfold dropind_of. simpl. rewrite (position_app_new bs name Hname).
    f_equal. lia. }
  erewrite dropindices_total; [|reflexivity|reflexivity].
  rewrite Hind. cbn [forallb data bands nodataval da_bands with_bands
                     with_scales with_offsets].
  rewrite (bool_decide_eq_true_2 (name ∈ (bs ++ [name])%list))
    by (apply elem_of_app; right; by left).
  cbn [andb]. rewrite bool_decide_eq_true_2.
  2:{ apply Forall_singleton. rewrite fmap_app. apply elem_of_app.
      right. by left. }
  split; [reflexivity|]. simpl.
  split; [reflexivity|]. split; [|split; [|done]].
  - rewrite filter_app, filter_all, filter_none, app_nil_r; [done| |].
    + apply Forall_singleton. simpl. intros Hn. apply Hn. by left.
    + apply Forall_forall. intros [l' px'] Hin. simpl.
      intros ->%list_elem_of_singleton.
      assert (Z.of_nat (S (length bs)) ∈ (da_bands d).*1) as Hin'.
      { apply list_elem_of_fmap. by exists (Z.of_nat (S (length bs)), px'). }
      rewrite Hl in Hin'. apply list_elem_of_fmap in Hin' as (i & Hi & Hseq).
      apply elem_of_seq in Hseq. lia.
  - do 2 f_equal.
    rewrite filter_app, filter_all, filter_none, app_nil_r; [done| |].
    + apply Forall_singleton. intros Hn. apply Hn. by left.
    + apply Forall_forall. intros x Hin ->%list_elem_of_singleton. done.
Qed.

Lemma add_then_drop_restores_bands_witness :
  ∃ self1 self2 d2,
    addindices [Samples.counting_index "A"] 7 MoreSamples.rasterS
    = (self1, Ok tt) ∧
    bands self1 = Some (Some ["A"; "B"; "C"; "N3"]) ∧
    dropindices ["N3"] self1 = (self2, Ok tt) ∧
    data self2 = Some d2 ∧
    da_bands d2 = [(1, [Num (-5); Num 11]); (2, [Num 20; Num 12000]);
                   (3, [Num 30; Num 31])] ∧
    bands self2 = Some (Some ["A"; "B"; "C"]) ∧
    attrs_scales d2 = [2; 2; 2; 2].
Proof.
  destruct (add_then_drop_restores_bands (Samples.counting_index "A") 7
              MoreSamples.rasterS (to_dataarray MoreSamples.tif_scaled)
              (with_bands (to_dataarray MoreSamples.tif_scaled) [(0, [Num 3; Num 7])])
              ["A"; "B"; "C"] "N3" 0 [Num 3; Num 7] 2 5 [3; 4] [6; 7])
    as (self1 & self2 & d2 & Hadd & Hdrop & Hd2 & Hb2 & Hbs2 & _ & Hs2 & _);
    [reflexivity | reflexivity | reflexivity | reflexivity | reflexivity
    | reflexivity | reflexivity | compute_done |].
  exists self1, self2, d2. split; [exact Hadd|]. split.
  { assert (bands (addindices [Samples.counting_index "A"] 7
                     MoreSamples.rasterS).1
            = Some (Some ["A"; "B"; "C"; "N3"])) as Hb
      by (vm_compute; reflexivity).
    by rewrite Hadd in Hb. }
  split; [exact Hdrop|]. split; [exact Hd2|]. split; [exact Hb2|].
  split; [exact Hbs2|exact Hs2].
Defined.

(** X9: [dropindices] changes nothing when it raises, whatever it raises:
    the assertion on a name that is not a band, the lookup of a label that
    no band carries, or a missing attribute.  [data], [bands] and
    [nodataval] are then what they were. *)
Theorem dropindices_failure_atomic
    (ds : list string) (self self' : Raster) (e : exn) :
  dropindices ds self = (self', Raise e) → self' = self.
Proof.
  destruct (bands self) as [[bs|]|] eqn:Hbs.
  - destruct (data self) as [d|] eqn:Hd.
    + rewrite (dropindices_total ds self d bs Hd Hbs).
      destruct (forallb _ ds); [|by intros [= <-]].
      case_bool_decide; [discriminate|by intros [= <-]].
    + unfold dropindices.
      rewrite (bind_Ok _ _ _ _ _ (all_in_bands_run _ _ ds Hbs)).
      destruct (forallb _ ds) eqn:Hall; simpl; [|by intros [= <-]].
      apply forallb_elem in Hall.
      rewrite (bind_Ok _ _ _ _ _ (drop_labels_run _ _ _ Hbs Hall)).
      unfold bind at 1, get_data. rewrite Hd. by intros [= <-].
  - destruct ds as [|x ds].
    + unfold dropindices, bind, get_data, get_bands. simpl.
      destruct (data self) as [d|] eqn:Hd; [|by intros [= <-]].
      simpl. rewrite Hbs. intros [= <- _].
      rewrite filter_all, with_bands_id by (apply Forall_forall; set_solver).
      destruct self. simpl in *. by subst.
    + unfold dropindices. simpl. unfold bind, get_bands. rewrite Hbs.
      by intros [= <-].
  - destruct ds as [|x ds].
    + unfold dropindices, bind, get_data, get_bands. simpl.
      destruct (data self) as [d|] eqn:Hd; [|by intros [= <-]].
      simpl. rewrite Hbs. intros [= <- _].
      rewrite filter_all, with_bands_id by (apply Forall_forall; set_solver).
      destruct self. simpl in *. by subst.
    + unfold dropindices. simpl. unfold bind, get_bands. rewrite Hbs.
      by intros [= <-].
Qed.

Lemma dropindices_failure_atomic_witness :
  let r1 := (dropindices ["A"] Samples.rasterABC).1 in
  dropindices ["B"] r1 = (r1, Raise (KeyError "labels not found in axis")).
Proof.
  intros r1.
  assert (dropindices ["B"] r1
          = ((dropindices ["B"] r1).1,
             Raise (KeyError "labels not found in axis"))) as Hrun
    by (vm_compute; reflexivity).
  transitivity ((dropindices ["B"] r1).1,
                Raise (A := unit) (KeyError "labels not found in axis"));
    [exact Hrun|].
  exact (f_equal
           (λ s, (s, Raise (A := unit) (KeyError "labels not found in axis")))
           (dropindices_failure_atomic ["B"] r1 _ _ Hrun)).
Defined.

Lemma forallb_same_elements (bs ds ds' : list string) :
  (∀ x, x ∈ ds ↔ x ∈ ds') →
  forallb (λ x, bool_decide (x ∈ bs)) ds
  = forallb (λ x, bool_decide (x ∈ bs)) ds'.
Proof.
  intros Hsame.
  destruct (forallb _ ds) eqn:H1, (forallb _ ds') eqn:H2; try done.
  - apply forallb_elem in H1. rewrite forallb_elem_2 in H2; [done|].
    apply Forall_forall. intros x Hx%Hsame.
    by apply (proj1 (Forall_forall _ _) H1).
  - apply forallb_elem in H2. rewrite forallb_elem_2 in H1; [done|].
    apply Forall_forall. intros x Hx%Hsame.
    by apply (proj1 (Forall_forall _ _) H2).
Qed.

Lemma dropind_of_same_elements (bs ds ds' : list string) :
  (∀ x, x ∈ ds ↔ x ∈ ds') →
  ∀ z, z ∈ dropind_of bs ds ↔ z ∈ dropind_of bs ds'.
Proof.
  intros Hsame z. unfold dropind_of. rewrite !list_elem_of_fmap.
  split; intros (x & -> & Hx); exists x; (split; [done|by apply Hsame]).
Qed.

(** X10: only the set of names given to [dropindices] matters.  On a
    raster that has [data] and a band list, two lists with the same
    elements, in any order and with any repetitions, give the same result
    and the same object, also when the call raises. *)
Theorem dropindices_same_elements
    (ds ds' : list string) (self : Raster) (d : DataArray) (bs : list string) :
  data self = Some d → bands self = Some (Some bs) →
  (∀ x, x ∈ ds ↔ x ∈ ds') →
  dropindices ds self = dropindices ds' self.
Proof.
  intros Hd Hbs Hsame.
  rewrite !(dropindices_total _ self d bs Hd Hbs).
  rewrite (forallb_same_elements bs ds ds' Hsame).
  pose proof (dropind_of_same_elements bs ds ds' Hsame) as Hind.
  rewrite (bool_decide_ext
             (Forall (λ l, l ∈ (da_bands d).*1) (dropind_of bs ds))
             (Forall (λ l, l ∈ (da_bands d).*1) (dropind_of bs ds'))).
  2:{ rewrite !Forall_forall. split; intros H z Hz; apply H, Hind, Hz. }
  rewrite (list_filter_iff (λ b : Z * list pixel, b.1 ∉ dropind_of bs ds)
             (λ b : Z * list pixel, b.1 ∉ dropind_of bs ds')).
  2:{ intros b. by rewrite (Hind b.1). }
  rewrite (list_filter_iff (λ band, band ∉ ds) (λ band, band ∉ ds')).
  2:{ intros x. by rewrite (Hsame x). }
  done.
Qed.

Lemma dropindices_same_elements_witness :
  dropindices ["C"; "A"; "C"] Samples.rasterABC
  = dropindices ["A"; "C"] Samples.rasterABC.
Proof.
  apply (dropindices_same_elements _ _ Samples.rasterABC Samples.dataABC
           ["A"; "B"; "C"]); [reflexivity | reflexivity |].
  intros x. rewrite !elem_of_cons. tauto.
Defined.

(** ** More on writing a prediction *)



Lemma stamp_equal_idem dt v (a p : list Z) :
  stamp_equal dt v a (stamp_equal dt v a p) = stamp_equal dt v a p.
Proof.
  unfold stamp_equal. revert p.
  induction a as [|m a IH]; intros [|x p]; cbn [zip_with]; try done.
  rewrite IH. by destruct (m =? v).
Qed.

Lemma stamped_idem v mask p :
  stamped v mask (stamped v mask p) = stamped v mask p.
Proof.
  unfold stamped. cbn [nd_dtype nd_shape nd_flat].
  by rewrite stamp_equal_idem.
Qed.

(** X12: writing the same prediction again to a path other than the
    reference changes nothing.  After a call of [toraster] that returned,
    the same call once more, the write being taken as before, returns and
    leaves the caller's arrays and the files as the first call left them:
    the array stamped once is stamped to itself.  The output must not be
    the reference itself, which the second call would otherwise read back
    as the first call wrote it. *)
Theorem toraster_twice
    (self : Raster) (rast : string) (pred : positive) (output : string)
    (w w' : World) :
  output ≠ rast →
  toraster self rast pred output w = (w', Ok tt) →
  toraster self rast pred output w' = (w', Ok tt).
Proof.
  intros Hne Hrun.
  destruct (toraster_inv _ _ _ _ _ _ Hrun)
    as (src & v & vs & p & rest & Hf & Hv & Hp & Hs & Hw).
  rewrite (toraster_run _ _ _ _ _ _ _ _ _ _ Hf Hv Hp Hs Hw) in Hrun.
  injection Hrun as <-.
  erewrite toraster_run;
    [|cbn [files]; rewrite lookup_insert_ne by done; exact Hf
     |exact Hv
     |cbn [arrays]; apply lookup_insert_eq
     |exact Hs
     |cbn [rio_write]; rewrite stamped_idem; exact Hw].
  cbn [files arrays rio_write].
  by rewrite stamped_idem, !insert_insert_eq.
Qed.

Lemma toraster_twice_witness :
  let w' := (toraster Samples.rasterABC "a.tif" 1 "out.tif"
               (Samples.world [1; 1])).1 in
  (nd_flat <$> arrays w' !! 1%positive) = Some [1; -9999] ∧
  toraster Samples.rasterABC "a.tif" 1 "out.tif" w' = (w', Ok tt).
Proof.
  intros w'. split; [vm_compute; reflexivity|].
  apply (toraster_twice _ _ _ _ (Samples.world [1; 1])); [done|].
  subst w'. vm_compute. reflexivity.
Defined.

Lemma stamp_zero_255 (mask : list Z) :
  Forall (λ m, m = 0 ∨ m = 255) mask →
  stamp_zero 255 (map int16 mask) = replicate (length mask) 255.
Proof.
  unfold stamp_zero. induction 1 as [|m mask Hm _ IH]; [done|].
  cbn [map length replicate]. rewrite IH.
  by destruct Hm as [-> | ->].
Qed.

Lemma stamp_equal_replicate dt v (p : list Z) :
  stamp_equal dt v (replicate (length p) v) p
  = replicate (length p) (astype dt v).
Proof.
  unfold stamp_equal. induction p as [|x p IH]; [done|].
  cbn [length replicate zip_with]. by rewrite Z.eqb_refl, IH.
Qed.

(** X13: a no-data value of 255 wipes the prediction.  [toraster] finds
    the pixels to overwrite by comparing the mask array with the no-data
    value after it has stored that value into the invalid positions; the
    valid positions of a rasterio mask hold 255, so with
    [nodataval[0] == 255] every position compares equal.  For a prediction
    whose dtype holds 255 as it is, the caller's array is 255 everywhere
    after the call whatever the prediction was, and so is the raster
    written when the write does not raise. *)
Theorem toraster_nodata_255_overwrites_all
    (self : Raster) (rast : string) (pred : positive) (output : string)
    (w : World) (src : RasterFile) (vs : list Z) (p : NdArray)
    (rest : Derived) :
  files w !! rast = Some (Tif src) →
  nodataval self = Some (255 :: vs) →
  arrays w !! pred = Some p →
  nd_shape p = (meta_height (profile src), meta_width (profile src)) →
  length (nd_flat p) = length (mask1 src) →
  Forall (λ m, m = 0 ∨ m = 255) (mask1 src) →
  astype (nd_dtype p) 255 = 255 →
  rio_write w output (out_meta (profile src)) (stamped 255 (mask1 src) p)
  = Stored rest →
  ∃ w' f out,
    toraster self rast pred output w = (w', Ok tt) ∧
    files w' !! output = Some (Tif f) ∧
    pixels f = [replicate (length (nd_flat p)) (Num 255)] ∧
    arrays w' !! pred = Some out ∧
    nd_flat out = replicate (length (nd_flat p)) 255.
Proof.
  intros Hf Hv Hp Hs Hlen Hmask Hdt Hw.
  assert (nd_flat (stamped 255 (mask1 src) p)
          = replicate (length (nd_flat p)) 255) as Hflat.
  { cbn [stamped nd_flat].
    by rewrite (stamp_zero_255 _ Hmask), <- Hlen, stamp_equal_replicate, Hdt. }
  eexists _, _, _.
  split; [by apply (toraster_run _ _ _ _ _ _ _ _ _ _ Hf Hv Hp Hs Hw)|].
  cbn [files arrays].
  split; [by rewrite lookup_insert_eq|].
  split; [|split; [by rewrite lookup_insert_eq|exact Hflat]].
  cbn [pixels written_file]. rewrite Hflat, !fmap_replicate. done.
Qed.

Lemma toraster_nodata_255_overwrites_all_witness :
  ∃ w' f out,
    toraster MoreSamples.rasterS "s.tif" 1 "out.tif"
      {| files := MoreSamples.disk;
         arrays := <[1%positive := {| nd_dtype := Int 16;
                                      nd_shape := (1%nat, 2%nat);
                                      nd_flat := [1; 0] |}]> ∅;
         rio_write := Samples.rio_write_sample |}
    = (w', Ok tt) ∧
    files w' !! "out.tif" = Some (Tif f) ∧
    pixels f = [[Num 255; Num 255]] ∧
    arrays w' !! 1%positive = Some out ∧
    nd_flat out = [255; 255].
Proof.
  destruct (toraster_nodata_255_overwrites_all MoreSamples.rasterS "s.tif" 1
              "out.tif"
              {| files := MoreSamples.disk;
                 arrays := <[1%positive := {| nd_dtype := Int 16;
                                              nd_shape := (1%nat, 2%nat);
                                              nd_flat := [1; 0] |}]> ∅;
                 rio_write := Samples.rio_write_sample |}
              MoreSamples.tif_scaled [255; 255]
              {| nd_dtype := Int 16; nd_shape := (1%nat, 2%nat);
                 nd_flat := [1; 0] |}
              {| der_mask1 := [255; 255]; der_scales := [1];
                 der_offsets := [0]; der_nodatavals := [0] |})
    as (w' & f & out & Hrun & Hw & Hpx & Harr & Hout);
    [reflexivity | reflexivity | reflexivity | reflexivity | reflexivity
    | repeat constructor; lia | reflexivity | reflexivity |].
  exists w', f, out. by repeat split.
Defined.
